(** * Configuration dialogs of the Lua scripting engine

    A shallow embedding of [src/auto4_lua_dialog.cpp]: the descriptor reader
    ([get_field], [read_string_array]), the control catalogue
    ([LuaControl::Label] ... [LuaControl::Checkbox]), the button resolver and
    the dialog aggregate ([LuaDialog]: construction, [PushButton],
    [LuaReadBack], [Serialise], [Unserialise]).

    Conventions.
    - [std::string] is a [string]: a sequence of 8-bit characters that may
      hold any byte, NUL included.  A [const char*] handed to or received
      from the C API denotes the characters before the first NUL ([c_str]).
    - [int] is a [Z] kept in [INT_MIN .. INT_MAX]; a conversion from a wider
      integer wraps ([wrap_int]).
    - [double], Lua's number conversions, the C library's float printing and
      parsing and [agi::Color] are external to the file under study; they are
      the operations of the class [Platform].
    - A Lua error raised with [error(L, ...)] is the outcome [Raise msg];
      a call outside the contract of the C++ library or of the Lua API is the
      outcome [Undefined].
    - Tables have no metatable: [lua_getfield] is a plain lookup. *)

From Stdlib Require Import ZArith List String Ascii Bool Lia.
From Stdlib Require Import DecimalString DecimalPos.
Import ListNotations.

Local Open Scope string_scope.
Local Open Scope Z_scope.

#[local] Set Warnings "-register-all".

(** ** Strings and characters *)

Module Str.

Definition NUL : ascii := "000"%char.

(** The characters a [const char*] denotes: those before the first NUL. *)
Fixpoint c_str (s : string) : string :=
  match s with
  | EmptyString => EmptyString
  | String c rest => if Ascii.eqb c NUL then EmptyString else String c (c_str rest)
  end.

(** [std::string::empty]. *)
Definition empty (s : string) : bool :=
  match s with EmptyString => true | String _ _ => false end.

(** [std::find(begin, end, c) != end]. *)
Fixpoint contains (c : ascii) (s : string) : bool :=
  match s with
  | EmptyString => false
  | String a rest => Ascii.eqb a c || contains c rest
  end.

(** Every character of the string satisfies [p]. *)
Fixpoint forallb (p : ascii -> bool) (s : string) : bool :=
  match s with
  | EmptyString => true
  | String a rest => p a && forallb p rest
  end.

(** [boost::to_lower] in the classic locale: A-Z to a-z, other bytes kept. *)
Definition to_lower_char (c : ascii) : ascii :=
  let n := N_of_ascii c in
  if ((65 <=? n) && (n <=? 90))%N then ascii_of_N (n + 32) else c.

Fixpoint to_lower (s : string) : string :=
  match s with
  | EmptyString => EmptyString
  | String c rest => String (to_lower_char c) (to_lower rest)
  end.

(** The characters before the first occurrence of [c] (all of them when there
    is none): [std::string(begin(tok), std::find(begin(tok), end(tok), c))]. *)
Fixpoint before (c : ascii) (s : string) : string :=
  match s with
  | EmptyString => EmptyString
  | String a rest => if Ascii.eqb a c then EmptyString else String a (before c rest)
  end.

(** The characters after the first occurrence of [c]:
    [std::string(pos + 1, end(tok))], meaningful when [c] occurs. *)
Fixpoint after (c : ascii) (s : string) : string :=
  match s with
  | EmptyString => EmptyString
  | String a rest => if Ascii.eqb a c then rest else after c rest
  end.

End Str.

(** ** The string codec *)

Module Codec.

(** Modelled from the spec: [string_codec.h] ([inline_string_encode],
    [inline_string_decode]) is not among the sources.  Section 4.1 fixes that
    the structural delimiter, the field separator and the escape character
    are the characters that never appear unescaped, and that decoding is
    total; it names neither the escape character nor the shape of an escape.
    Here the escape character is the number sign, and an escaped character is
    written as the number sign followed by its two upper-case hexadecimal
    digits. *)
Definition escape_char : ascii := "#"%char.

(** Modelled from the spec: the characters section 4.1 has escaped. *)
Definition is_special (c : ascii) : bool :=
  Ascii.eqb c "|"%char || Ascii.eqb c ":"%char || Ascii.eqb c escape_char.

Definition hex_digit (n : N) : ascii :=
  if (n <? 10)%N then ascii_of_N (48 + n) else ascii_of_N (55 + n).

Definition hex_value (c : ascii) : option N :=
  let n := N_of_ascii c in
  if ((48 <=? n) && (n <=? 57))%N then Some (n - 48)%N
  else if ((65 <=? n) && (n <=? 70))%N then Some (n - 55)%N
  else if ((97 <=? n) && (n <=? 102))%N then Some (n - 87)%N
  else None.

Definition escape (c : ascii) (tail : string) : string :=
  let n := N_of_ascii c in
  String escape_char (String (hex_digit (n / 16)) (String (hex_digit (n mod 16)) tail)).

(** Modelled from the spec: [Encode] of section 4.1. *)
Fixpoint inline_string_encode (input : string) : string :=
  match input with
  | EmptyString => EmptyString
  | String c rest =>
      if is_special c then escape c (inline_string_encode rest)
      else String c (inline_string_encode rest)
  end.

(** Modelled from the spec: [Decode] of section 4.1.  An escape character
    that is not followed by two hexadecimal digits breaks the escape grammar;
    it is kept as it is (best effort, nothing raised). *)
Fixpoint inline_string_decode (input : string) : string :=
  match input with
  | EmptyString => EmptyString
  | String c rest =>
      if Ascii.eqb c escape_char then
        match rest with
        | String h (String l rest') =>
            match hex_value h, hex_value l with
            | Some a, Some b => String (ascii_of_N (16 * a + b)) (inline_string_decode rest')
            | _, _ => String c (inline_string_decode rest)
            end
        | _ => String c (inline_string_decode rest)
        end
      else String c (inline_string_decode rest)
  end.

(** A string the encoder leaves alone: none of its characters is special. *)
Definition plain (s : string) : bool := Str.forallb (fun c => negb (is_special c)) s.

End Codec.

(** ** Machine integers and the C library *)

Module C.

Definition INT_MIN : Z := -2147483648.
Definition INT_MAX : Z := 2147483647.
Definition LONG_MIN : Z := -9223372036854775808.
Definition LONG_MAX : Z := 9223372036854775807.

(** Conversion of a wider integer to [int]: the value modulo 2^32, taken in
    [INT_MIN .. INT_MAX]. *)
Definition wrap_int (z : Z) : Z := (z + 2147483648) mod 4294967296 - 2147483648.

(** [std::to_string(int)]: the decimal digits, with a minus sign when
    negative. *)
Definition to_string (value : Z) : string := NilZero.string_of_int (Z.to_int value).

Definition isspace (c : ascii) : bool :=
  let n := N_of_ascii c in ((9 <=? n) && (n <=? 13) || (n =? 32))%N.

Definition digit_value (c : ascii) : option Z :=
  let n := N_of_ascii c in
  if ((48 <=? n) && (n <=? 57))%N then Some (Z.of_N (n - 48)) else None.

Fixpoint skip_spaces (s : string) : string :=
  match s with
  | String c rest => if isspace c then skip_spaces rest else s
  | EmptyString => s
  end.

(** The value of the longest prefix of decimal digits, [acc] being the value
    of the digits already read. *)
Fixpoint digits (acc : Z) (s : string) : Z :=
  match s with
  | String c rest =>
      match digit_value c with
      | Some d => digits (10 * acc + d) rest
      | None => acc
      end
  | EmptyString => acc
  end.

Definition clamp_long (z : Z) : Z := Z.max LONG_MIN (Z.min LONG_MAX z).

(** [strtol(s, NULL, 10)]: leading white space, an optional sign, decimal
    digits; no digits give 0, a value outside [long] saturates. *)
Definition strtol10 (s : string) : Z :=
  match skip_spaces s with
  | String "-"%char rest => clamp_long (- digits 0 rest)
  | String "+"%char rest => clamp_long (digits 0 rest)
  | t => clamp_long (digits 0 t)
  end.

(** [atoi(s)], which is [(int) strtol(s, NULL, 10)].  C leaves [atoi]
    undefined when the value does not fit an [int]; the definition gives such
    text the value of an implementation whose [long] has 64 bits, and no
    theorem rests on which value that is. *)
Definition atoi (s : string) : Z := wrap_int (strtol10 s).

End C.

(** ** Outcomes of code that may raise a Lua error *)

Inductive outcome (A : Type) : Type :=
| Ok (a : A)
| Raise (msg : string)
| Undefined.

Arguments Ok {A} a.
Arguments Raise {A} msg.
Arguments Undefined {A}.

Definition bind {A B : Type} (m : outcome A) (k : A -> outcome B) : outcome B :=
  match m with
  | Ok a => k a
  | Raise msg => Raise msg
  | Undefined => Undefined
  end.

Notation "x <- m ;; k" := (bind m (fun x => k))
  (at level 61, m at next level, right associativity).

(** A loop body run on each element in turn, stopping at the first one that
    does not return. *)
Fixpoint for_each {A B : Type} (body : A -> outcome B) (l : list A) : outcome (list B) :=
  match l with
  | [] => Ok []
  | a :: rest =>
      b <- body a ;;
      bs <- for_each body rest ;;
      Ok (b :: bs)
  end.

(** A loop that threads a state through its body. *)
Fixpoint fold_each {A S : Type} (body : S -> A -> outcome S) (l : list A) (s : S) : outcome S :=
  match l with
  | [] => Ok s
  | a :: rest =>
      s' <- body s a ;;
      fold_each body rest s'
  end.

(** ** What the file takes from its platform *)

(** Doubles, Lua's conversions between numbers, integers and strings, the C
    library's printing and parsing of doubles, and [agi::Color]. *)
Class Platform : Type := {
  (** [lua_Number], a [double]. *)
  lua_Number : Type;
  (** The [lua_Integer] (a [ptrdiff_t]) [lua_tointeger] makes of a number. *)
  lua_number2integer : lua_Number -> Z;
  (** The number [lua_pushinteger] makes of an integer. *)
  lua_integer2number : Z -> lua_Number;
  (** The string [lua_tostring] makes of a number. *)
  lua_number2str : lua_Number -> string;
  (** The number a string converts to, when it does ([lua_isnumber]). *)
  lua_str2number : string -> option lua_Number;
  (** [0.0], [DBL_MAX] and [-DBL_MAX]. *)
  double_zero : lua_Number;
  DBL_MAX : lua_Number;
  neg_DBL_MAX : lua_Number;
  (** [a >= b] on doubles. *)
  double_ge : lua_Number -> lua_Number -> bool;
  (** [std::to_string(double)] and [atof]. *)
  to_string_double : lua_Number -> string;
  atof : string -> lua_Number;
  (** [agi::Color], its construction from a string and [GetHexFormatted]. *)
  agi_Color : Type;
  Color_of_string : string -> agi_Color;
  GetHexFormatted : agi_Color -> bool -> string
}.

(** ** Lua values and the C API *)

Section Dialog.

Context `{P : Platform}.

(** A Lua value.  A table is the list of its (key, value) pairs in the order
    [lua_next] visits them. *)
Inductive LuaValue : Type :=
| LNil
| LBoolean (b : bool)
| LNumber (n : lua_Number)
| LString (s : string)
| LTable (entries : list (LuaValue * LuaValue))
| LOpaque.

Definition lua_istable (v : LuaValue) : bool :=
  match v with LTable _ => true | _ => false end.

(** [lua_isstring]: a string, or a number (which converts to one). *)
Definition lua_isstring (v : LuaValue) : bool :=
  match v with LString _ | LNumber _ => true | _ => false end.

(** [lua_tostring]: the [const char*] of a string or of a converted number,
    and [NULL] ([None]) for anything else. *)
Definition lua_tostring (v : LuaValue) : option string :=
  match v with
  | LString s => Some (Str.c_str s)
  | LNumber n => Some (Str.c_str (lua_number2str n))
  | _ => None
  end.

(** [lua_isnumber]: a number, or a string that converts to one. *)
Definition lua_isnumber (v : LuaValue) : bool :=
  match v with
  | LNumber _ => true
  | LString s => match lua_str2number s with Some _ => true | None => false end
  | _ => false
  end.

Definition lua_tonumber (v : LuaValue) : lua_Number :=
  match v with
  | LNumber n => n
  | LString s => match lua_str2number s with Some n => n | None => double_zero end
  | _ => double_zero
  end.

Definition lua_tointeger (v : LuaValue) : Z :=
  match v with
  | LNumber n => lua_number2integer n
  | LString s => match lua_str2number s with Some n => lua_number2integer n | None => 0 end
  | _ => 0
  end.

Definition lua_isboolean (v : LuaValue) : bool :=
  match v with LBoolean _ => true | _ => false end.

Definition lua_toboolean (v : LuaValue) : bool :=
  match v with LNil | LBoolean false => false | _ => true end.

(** [lua_getfield(L, -1, name)] on a table: the value under the string key
    [name], nil when there is none. *)
Fixpoint lua_getfield (entries : list (LuaValue * LuaValue)) (name : string) : LuaValue :=
  match entries with
  | [] => LNil
  | (LString k, v) :: rest => if String.eqb k name then v else lua_getfield rest name
  | _ :: rest => lua_getfield rest name
  end.

(** [lua_pushstring(L, s.c_str())]. *)
Definition lua_pushstring (s : string) : LuaValue := LString (Str.c_str s).

(** [lua_pushinteger(L, value)]. *)
Definition lua_pushinteger (value : Z) : LuaValue := LNumber (lua_integer2number value).

Definition has_key (k : string) (entry : LuaValue * LuaValue) : bool :=
  match fst entry with LString k' => String.eqb k' k | _ => false end.

(** [lua_setfield(L, -2, k)] with the value [v] on top: the entry under [k]
    is replaced; storing nil removes it. *)
Definition lua_setfield (entries : list (LuaValue * LuaValue)) (k : string) (v : LuaValue)
  : list (LuaValue * LuaValue) :=
  let others := filter (fun e => negb (has_key k e)) entries in
  match v with
  | LNil => others
  | _ => others ++ [(LString k, v)]
  end.

(** Modelled from the spec: [agi::lua::lua_for_each]
    ([libaegisub/lua/utils.h]) is not among the sources; section 6 has it
    iterate the entries of a table in order.  These are the pairs the body
    runs on.  It traverses with [lua_next], and [lua_next] on a value that is
    no table is outside the API's contract. *)
Definition lua_for_each (v : LuaValue) : outcome (list (LuaValue * LuaValue)) :=
  match v with
  | LTable entries => Ok entries
  | _ => Undefined
  end.

(** Modelled from the spec: [agi::lua::check_string]
    ([libaegisub/lua/utils.h]) is not among the sources; section 6 has the
    button labels and the semantic names be strings.  It gives the string
    with its full length, a number converted, and raises a Lua type error for
    anything else. *)
Definition check_string (v : LuaValue) : outcome string :=
  match v with
  | LString s => Ok s
  | LNumber n => Ok (lua_number2str n)
  | _ => Raise "string expected"
  end.

(** ** The descriptor reader *)

Definition get_if_right_type_string (v : LuaValue) (def : string) : string :=
  if lua_isstring v then
    match lua_tostring v with Some s => s | None => def end
  else def.

Definition get_if_right_type_double (v : LuaValue) (def : lua_Number) : lua_Number :=
  if lua_isnumber v then lua_tonumber v else def.

Definition get_if_right_type_int (v : LuaValue) (def : Z) : Z :=
  if lua_isnumber v then C.wrap_int (lua_tointeger v) else def.

Definition get_if_right_type_bool (v : LuaValue) (def : bool) : bool :=
  if lua_isboolean v then negb (negb (lua_toboolean v)) else def.

(** [get_field<T>(L, name, def)], one definition per instance of [T]; the
    table on top of the stack is [t]. *)
Definition get_field_string (t : list (LuaValue * LuaValue)) (name : string) (def : string) : string :=
  get_if_right_type_string (lua_getfield t name) def.

Definition get_field_double (t : list (LuaValue * LuaValue)) (name : string) (def : lua_Number)
  : lua_Number :=
  get_if_right_type_double (lua_getfield t name) def.

Definition get_field_int (t : list (LuaValue * LuaValue)) (name : string) (def : Z) : Z :=
  get_if_right_type_int (lua_getfield t name) def.

Definition get_field_bool (t : list (LuaValue * LuaValue)) (name : string) (def : bool) : bool :=
  get_if_right_type_bool (lua_getfield t name) def.

(** [get_field(L, name)]. *)
Definition get_field (t : list (LuaValue * LuaValue)) (name : string) : string :=
  get_field_string t name EmptyString.

(** The strings [read_string_array] pushes back, in order, from the pairs the
    loop visits. *)
Fixpoint string_entries (entries : list (LuaValue * LuaValue)) : list string :=
  match entries with
  | [] => []
  | (_, v) :: rest =>
      if lua_isstring v then
        match lua_tostring v with
        | Some s => s :: string_entries rest
        | None => string_entries rest
        end
      else string_entries rest
  end.

Definition read_string_array (v : LuaValue) : outcome (list string) :=
  entries <- lua_for_each v ;;
  Ok (string_entries entries).

(** ** Button ids *)

Definition BTN_OK : Z := 0.
Definition BTN_YES : Z := 1.
Definition BTN_SAVE : Z := 2.
Definition BTN_APPLY : Z := 3.
Definition BTN_CLOSE : Z := 4.
Definition BTN_NO : Z := 5.
Definition BTN_CANCEL : Z := 6.
Definition BTN_HELP : Z := 7.
Definition BTN_CONTEXT_HELP : Z := 8.

Definition ids : list (string * Z) :=
  [ ("ok", BTN_OK); ("yes", BTN_YES); ("save", BTN_SAVE); ("apply", BTN_APPLY);
    ("close", BTN_CLOSE); ("no", BTN_NO); ("cancel", BTN_CANCEL); ("help", BTN_HELP);
    ("context_help", BTN_CONTEXT_HELP) ].

Definition string_to_button_id (str : string) : Z :=
  match find (fun e => String.eqb (fst e) str) ids with
  | Some e => snd e
  | None => -1
  end.

(** ** The control catalogue *)

(** The members of the base class [LuaDialogControl]. *)
Record LuaDialogControl : Type := {
  name : string;
  hint : string;
  x : Z;
  y : Z;
  width : Z;
  height : Z
}.

(** [LuaDialogControl::LuaDialogControl]: the top of the stack is the control
    table [t]. *)
Definition LuaDialogControl_ctor (t : list (LuaValue * LuaValue)) : LuaDialogControl :=
  {| name := get_field t "name";
     hint := get_field t "hint";
     x := get_field_int t "x" 0;
     y := get_field_int t "y" 0;
     width := get_field_int t "width" 1;
     height := get_field_int t "height" 1 |}.

(** The classes of [namespace LuaControl], each with the members of its base
    classes first: [Textbox], [IntEdit] and [FloatEdit] derive from [Edit] and
    carry its [text]. *)
Inductive Control : Type :=
| Label (base : LuaDialogControl) (label : string)
| Edit (base : LuaDialogControl) (text : string)
| Color (base : LuaDialogControl) (color : agi_Color) (alpha : bool)
| Textbox (base : LuaDialogControl) (text : string)
| IntEdit (base : LuaDialogControl) (text : string) (value min max : Z)
| FloatEdit (base : LuaDialogControl) (text : string) (value min max step : lua_Number)
| Dropdown (base : LuaDialogControl) (items : list string) (value : string)
| Checkbox (base : LuaDialogControl) (label : string) (value : bool).

Definition control_base (control : Control) : LuaDialogControl :=
  match control with
  | Label b _ | Edit b _ | Color b _ _ | Textbox b _ | IntEdit b _ _ _ _
  | FloatEdit b _ _ _ _ _ | Dropdown b _ _ | Checkbox b _ _ => b
  end.

(** [control->name]. *)
Definition control_name (control : Control) : string := name (control_base control).

(** The [text] member [Edit::Edit] leaves: [value] is read first, then [text]
    with what [value] gave as its default. *)
Definition Edit_text (t : list (LuaValue * LuaValue)) : string :=
  let text := get_field t "value" in
  get_field_string t "text" text.

Definition Label_ctor (t : list (LuaValue * LuaValue)) : Control :=
  Label (LuaDialogControl_ctor t) (get_field t "label").

Definition Edit_ctor (t : list (LuaValue * LuaValue)) : Control :=
  Edit (LuaDialogControl_ctor t) (Edit_text t).

Definition Color_ctor (t : list (LuaValue * LuaValue)) (alpha : bool) : Control :=
  Color (LuaDialogControl_ctor t) (Color_of_string (get_field t "value")) alpha.

Definition Textbox_ctor (t : list (LuaValue * LuaValue)) : Control :=
  Textbox (LuaDialogControl_ctor t) (Edit_text t).

Definition IntEdit_ctor (t : list (LuaValue * LuaValue)) : Control :=
  let value := get_field_int t "value" 0 in
  let min := get_field_int t "min" C.INT_MIN in
  let max := get_field_int t "max" C.INT_MAX in
  if min >=? max then
    IntEdit (LuaDialogControl_ctor t) (Edit_text t) value C.INT_MIN C.INT_MAX
  else
    IntEdit (LuaDialogControl_ctor t) (Edit_text t) value min max.

Definition FloatEdit_ctor (t : list (LuaValue * LuaValue)) : Control :=
  let value := get_field_double t "value" double_zero in
  let min := get_field_double t "min" neg_DBL_MAX in
  let max := get_field_double t "max" DBL_MAX in
  let step := get_field_double t "step" double_zero in
  if double_ge min max then
    FloatEdit (LuaDialogControl_ctor t) (Edit_text t) value neg_DBL_MAX DBL_MAX step
  else
    FloatEdit (LuaDialogControl_ctor t) (Edit_text t) value min max step.

(** [std::find(items.begin(), items.end(), value) != items.end()]. *)
Definition member (value : string) (items : list string) : bool :=
  existsb (String.eqb value) items.

(** The [value] member [Dropdown::Dropdown] leaves, from the items and the
    value it has read. *)
Definition Dropdown_value (items : list string) (value : string) : string :=
  match items with
  | first :: _ => if negb (member value items) then first else value
  | [] => value
  end.

Definition Dropdown_ctor (t : list (LuaValue * LuaValue)) : outcome Control :=
  let value := get_field t "value" in
  items <- read_string_array (lua_getfield t "items") ;;
  Ok (Dropdown (LuaDialogControl_ctor t) items (Dropdown_value items value)).

Definition Checkbox_ctor (t : list (LuaValue * LuaValue)) : Control :=
  Checkbox (LuaDialogControl_ctor t) (get_field t "label") (get_field_bool t "value" false).

(** [CanSerialiseValue]: every class but [Label] overrides it to [true]. *)
Definition CanSerialiseValue (control : Control) : bool :=
  match control with
  | Label _ _ => false
  | _ => true
  end.

Definition SerialiseValue (control : Control) : string :=
  match control with
  | Label _ _ => EmptyString
  | Edit _ text | Textbox _ text => Codec.inline_string_encode text
  | Color _ color alpha => Codec.inline_string_encode (GetHexFormatted color alpha)
  | IntEdit _ _ value _ _ => C.to_string value
  | FloatEdit _ _ value _ _ _ => to_string_double value
  | Dropdown _ _ value => Codec.inline_string_encode value
  | Checkbox _ _ value => if value then "1" else "0"
  end.

Definition UnserialiseValue (control : Control) (serialised : string) : Control :=
  match control with
  | Label b l => Label b l
  | Edit b _ => Edit b (Codec.inline_string_decode serialised)
  | Textbox b _ => Textbox b (Codec.inline_string_decode serialised)
  | Color b _ alpha => Color b (Color_of_string (Codec.inline_string_decode serialised)) alpha
  | IntEdit b text _ min max => IntEdit b text (C.atoi (Str.c_str serialised)) min max
  | FloatEdit b text _ min max step => FloatEdit b text (atof (Str.c_str serialised)) min max step
  | Dropdown b items _ => Dropdown b items (Codec.inline_string_decode serialised)
  | Checkbox b l _ => Checkbox b l (negb (String.eqb serialised "0"))
  end.

(** The value a control's [LuaReadBack] pushes. *)
Definition control_LuaReadBack (control : Control) : LuaValue :=
  match control with
  | Label _ _ => LNil
  | Edit _ text | Textbox _ text => lua_pushstring text
  | Color _ color alpha => lua_pushstring (GetHexFormatted color alpha)
  | IntEdit _ _ value _ _ => lua_pushinteger value
  | FloatEdit _ _ value _ _ _ => LNumber value
  | Dropdown _ _ value => lua_pushstring value
  | Checkbox _ _ value => LBoolean value
  end.

(** The class dispatch of [LuaDialog::LuaDialog], on the control table [t]. *)
Definition make_control (t : list (LuaValue * LuaValue)) : outcome Control :=
  let controlclass := Str.to_lower (get_field t "class") in
  if String.eqb controlclass "label" then Ok (Label_ctor t)
  else if String.eqb controlclass "edit" then Ok (Edit_ctor t)
  else if String.eqb controlclass "intedit" then Ok (IntEdit_ctor t)
  else if String.eqb controlclass "floatedit" then Ok (FloatEdit_ctor t)
  else if String.eqb controlclass "textbox" then Ok (Textbox_ctor t)
  else if String.eqb controlclass "dropdown" then Dropdown_ctor t
  else if String.eqb controlclass "checkbox" then Ok (Checkbox_ctor t)
  else if String.eqb controlclass "color" then Ok (Color_ctor t false)
  else if String.eqb controlclass "coloralpha" then Ok (Color_ctor t true)
  else if String.eqb controlclass "alpha" then Ok (Edit_ctor t)
  else Raise "bad control table entry".

(** ** The dialog *)

Record LuaDialog : Type := {
  controls : list Control;
  buttons : list (Z * string);
  use_buttons : bool;
  button_pushed : Z
}.

(** The body of the loop over the control tables. *)
Definition control_entry (entry : LuaValue * LuaValue) : outcome Control :=
  match snd entry with
  | LTable t => make_control t
  | _ => Raise "bad control table entry"
  end.

(** The body of the loop over the button labels. *)
Definition button_entry (entry : LuaValue * LuaValue) : outcome (Z * string) :=
  label <- check_string (snd entry) ;;
  Ok (-1, label).

(** [btn->first = id] at the first button [boost::find_if] finds with the
    label; [None] when it finds none ([btn == end(buttons)]). *)
Fixpoint assign_first (label : string) (id : Z) (buttons : list (Z * string))
  : option (list (Z * string)) :=
  match buttons with
  | [] => None
  | btn :: rest =>
      if String.eqb (snd btn) label then Some ((id, snd btn) :: rest)
      else option_map (cons btn) (assign_first label id rest)
  end.

(** What [error(L, "Invalid button for id %s", lua_tostring(L, -2))] raises
    for the key [key]; the position prefix of the message is left out. *)
Definition invalid_button (key : LuaValue) : string :=
  "Invalid button for id " ++
  match lua_tostring key with Some s => s | None => "(null)" end.

(** The body of the loop over the button id map: the key is at -2, the value
    at -1.  [check_string] converts a key that is a number where it stands,
    and the [lua_next] that follows is then outside the API's contract. *)
Definition button_id_entry (buttons : list (Z * string)) (entry : LuaValue * LuaValue)
  : outcome (list (Z * string)) :=
  key <- check_string (fst entry) ;;
  let id := string_to_button_id key in
  label <- check_string (snd entry) ;;
  match assign_first label id buttons with
  | None => Raise (invalid_button (fst entry))
  | Some buttons' =>
      match fst entry with
      | LString _ => Ok buttons'
      | _ => Undefined
      end
  end.

(** [LuaDialog::LuaDialog(L, include_buttons)], the stack holding [arg1],
    [arg2] and [arg3] at the indices 1, 2 and 3 (nil where there is nothing).
    [button_pushed] starts at the sentinel -1 (its initialiser is in
    [auto4_lua.h]; section 3 of the specification has it as "none"). *)
Definition LuaDialog_ctor (arg1 arg2 arg3 : LuaValue) (include_buttons : bool)
  : outcome LuaDialog :=
  if negb (lua_istable arg1) then
    Raise "Cannot create config dialog from something non-table"
  else
    entries <- lua_for_each arg1 ;;
    controls <- for_each control_entry entries ;;
    buttons <-
      (if include_buttons && lua_istable arg2 then
         labels <- lua_for_each arg2 ;;
         for_each button_entry labels
       else Ok []) ;;
    buttons <-
      (if include_buttons && lua_istable arg3 then
         pairs <- lua_for_each arg3 ;;
         fold_each button_id_entry pairs buttons
       else Ok buttons) ;;
    let buttons :=
      match buttons with
      | [] => [(BTN_OK, "OK"); (BTN_CANCEL, "Cancel")]
      | _ => buttons
      end in
    Ok {| controls := controls;
          buttons := buttons;
          use_buttons := include_buttons;
          button_pushed := -1 |}.

(** [buttons[i]]; an index outside the vector is outside its contract. *)
Definition button_at (buttons : list (Z * string)) (i : Z) : outcome (Z * string) :=
  if i <? 0 then Undefined
  else match nth_error buttons (Z.to_nat i) with
       | Some btn => Ok btn
       | None => Undefined
       end.

(** What [LuaDialog::LuaReadBack] leaves on the stack: the activation value
    when buttons are in use, then the table of the controls' values. *)
Record ReadBack : Type := {
  activation : option LuaValue;
  values : list (LuaValue * LuaValue)
}.

(** The first part of [LuaReadBack]: which button was pressed, if any. *)
Definition read_back_button (d : LuaDialog) : outcome (option LuaValue) :=
  if use_buttons d then
    if button_pushed d =? -1 then Ok (Some (LBoolean false))
    else
      btn <- button_at (buttons d) (button_pushed d) ;;
      if fst btn =? BTN_CANCEL then Ok (Some (LBoolean false))
      else Ok (Some (lua_pushstring (snd btn)))
  else Ok None.

(** The second part: each control's value is stored under its name. *)
Definition read_back_controls (controls : list Control) : list (LuaValue * LuaValue) :=
  fold_left
    (fun table control =>
       lua_setfield table (Str.c_str (control_name control)) (control_LuaReadBack control))
    controls [].

Definition LuaReadBack (d : LuaDialog) : outcome ReadBack :=
  act <- read_back_button d ;;
  Ok {| activation := act; values := read_back_controls (controls d) |}.

(** The number of results [LuaReadBack] returns. *)
Definition LuaReadBack_count (d : LuaDialog) : Z := if use_buttons d then 2 else 1.

Definition PushButton (d : LuaDialog) (button : Z) : LuaDialog :=
  let button :=
    if negb (button =? -1) && ((button <? 0) || (button >=? Z.of_nat (List.length (buttons d))))
    then -1 else button in
  {| controls := controls d;
     buttons := buttons d;
     use_buttons := use_buttons d;
     button_pushed := button |}.

(** One round of the loop of [Serialise]: [res] is the string so far. *)
Definition serialise_control (res : string) (control : Control) : string :=
  if CanSerialiseValue control then
    (if negb (Str.empty res) then res ++ "|" else res)
    ++ (Codec.inline_string_encode (control_name control) ++ ":" ++ SerialiseValue control)
  else res.

Definition Serialise (d : LuaDialog) : string :=
  fold_left serialise_control (controls d) EmptyString.

(** Modelled from the spec: [agi::Split] ([libaegisub/split.h]) is not among
    the sources; section 4.5 has [Unserialise] split its input on the
    delimiter.  The tokens are the stretches between delimiters, and an empty
    input has no token. *)
Fixpoint split_tokens (c : ascii) (s : string) : list string :=
  match s with
  | EmptyString => [EmptyString]
  | String a rest =>
      if Ascii.eqb a c then EmptyString :: split_tokens c rest
      else match split_tokens c rest with
           | tok :: toks => String a tok :: toks
           | [] => [String a EmptyString]
           end
  end.

(** Modelled from the spec: [agi::Split(s, c)], as above. *)
Definition Split (s : string) (c : ascii) : list string :=
  if Str.empty s then [] else split_tokens c s.

(** The inner loop of [Unserialise]: the value goes to every control with
    the name that can take one. *)
Definition hand_value (name value : string) (controls : list Control) : list Control :=
  map (fun control =>
         if String.eqb (control_name control) name && CanSerialiseValue control
         then UnserialiseValue control value
         else control)
      controls.

(** One round of the outer loop of [Unserialise], on the token [tok]. *)
Definition unserialise_token (controls : list Control) (tok : string) : list Control :=
  if negb (Str.contains ":" tok) then controls
  else
    let name := Codec.inline_string_decode (Str.before ":" tok) in
    let value := Str.after ":" tok in
    hand_value name value controls.

Definition Unserialise (d : LuaDialog) (serialised : string) : LuaDialog :=
  {| controls := fold_left unserialise_token (Split serialised "|") (controls d);
     buttons := buttons d;
     use_buttons := use_buttons d;
     button_pushed := button_pushed d |}.

(** ** The serialized-state format, as emitted and as the specification
    words it *)


(** Whether the text [std::to_string] prints for the value of a float edit
    holds none of the delimiter, the separator and the escape character, as
    is the case of digits, a sign, a decimal point, "inf" and "nan".  The
    other classes print no double. *)
Definition prints_plain (control : Control) : bool :=
  match control with
  | FloatEdit _ _ value _ _ _ => Codec.plain (to_string_double value)
  | _ => true
  end.

(** An entry as [Serialise] emits it: the encoded name, the separator, what
    the control serialises. *)
Definition emitted_entry (control : Control) : string :=
  Codec.inline_string_encode (control_name control) ++ ":" ++ SerialiseValue control.



(** ** States and inputs the theorems speak of *)

(** [button_pushed] is the sentinel or an index into [buttons]. *)
Definition button_pushed_valid (d : LuaDialog) : Prop :=
  button_pushed d = -1 \/ 0 <= button_pushed d < Z.of_nat (List.length (buttons d)).

(** No button was pushed, or the button at the pushed position of [buttons]
    has the id [BTN_CANCEL]. *)
Definition none_or_cancel (d : LuaDialog) : Prop :=
  button_pushed d = -1 \/
  exists label,
    0 <= button_pushed d /\
    nth_error (buttons d) (Z.to_nat (button_pushed d)) = Some (BTN_CANCEL, label).

(** The [i]-th entry of a Lua array. *)
Definition array_entry (i : Z) (v : LuaValue) : LuaValue * LuaValue :=
  (lua_pushinteger i, v).

(** The control tables of the dialog
    [Edit("a", "hello|world"), IntEdit("b", 5, min = 0, max = 10),
    Checkbox("c", true)], the numbers being [n5], [n0] and [n10]. *)
Definition three_controls (n5 n0 n10 : lua_Number) : LuaValue :=
  LTable
    [ array_entry 1 (LTable [ (LString "class", LString "edit");
                              (LString "name", LString "a");
                              (LString "value", LString "hello|world") ]);
      array_entry 2 (LTable [ (LString "class", LString "intedit");
                              (LString "name", LString "b");
                              (LString "value", LNumber n5);
                              (LString "min", LNumber n0);
                              (LString "max", LNumber n10) ]);
      array_entry 3 (LTable [ (LString "class", LString "checkbox");
                              (LString "name", LString "c");
                              (LString "value", LBoolean true) ]) ].

(** The base members of a control table that gives a name and nothing else
    of them. *)
Definition named (n : string) : LuaDialogControl :=
  {| name := n; hint := ""; x := 0; y := 0; width := 1; height := 1 |}.

(** The dialog the constructor makes of [three_controls]: the integer edit
    keeps, as the [text] it inherits, what [lua_tostring] makes of its
    [value]. *)
Definition three_dialog (n5 : lua_Number) (include_buttons : bool) : LuaDialog :=
  {| controls :=
       [ Edit (named "a") "hello|world";
         IntEdit (named "b") (Str.c_str (lua_number2str n5)) 5 0 10;
         Checkbox (named "c") "" true ];
     buttons := [(BTN_OK, "OK"); (BTN_CANCEL, "Cancel")];
     use_buttons := include_buttons;
     button_pushed := -1 |}.

End Dialog.

(** ** A platform to run the definitions on *)

Module Whole.

(** The strings that are decimal digits throughout, as whole numbers. *)
Definition str2number (s : string) : option Z :=
  if negb (Str.empty s) && Str.forallb (fun c => match C.digit_value c with Some _ => true | None => false end) s
  then Some (C.digits 0 s) else None.

(** The doubles that are whole numbers, printed and parsed as such; a colour
    is the text it was made from. *)
Definition platform : Platform :=
  {| lua_Number := Z;
     lua_number2integer := fun n => n;
     lua_integer2number := fun i => i;
     lua_number2str := C.to_string;
     lua_str2number := str2number;
     double_zero := 0;
     DBL_MAX := 2 ^ 1024 - 2 ^ 971;
     neg_DBL_MAX := - (2 ^ 1024 - 2 ^ 971);
     double_ge := Z.geb;
     to_string_double := fun n => C.to_string n ++ ".000000";
     atof := C.strtol10;
     agi_Color := string;
     Color_of_string := fun s => s;
     GetHexFormatted := fun c _ => c |}.

#[local] Existing Instance platform.

(** An integer edit whose range is inverted: [min = 10], [max = 5]. *)
Definition inverted_intedit : list (LuaValue * LuaValue) :=
  [ (LString "class", LString "IntEdit");
    (LString "name", LString "n");
    (LString "value", LNumber 7);
    (LString "min", LNumber 10);
    (LString "max", LNumber 5) ].

(** A dropdown with the items "a" and "b" and the value "z". *)
Definition dropdown_items : list (LuaValue * LuaValue) :=
  [ array_entry 1 (LString "a"); array_entry 2 (LBoolean true); array_entry 3 (LString "b") ].

Definition stale_dropdown : list (LuaValue * LuaValue) :=
  [ (LString "class", LString "dropdown");
    (LString "name", LString "d");
    (LString "items", LTable dropdown_items);
    (LString "value", LString "z") ].

(** An edit with both keys, and one with [value] only. *)
Definition edit_both : list (LuaValue * LuaValue) :=
  [ (LString "class", LString "edit");
    (LString "value", LString "from value");
    (LString "text", LString "from text") ].

Definition edit_value_only : list (LuaValue * LuaValue) :=
  [ (LString "class", LString "textbox");
    (LString "value", LString "from value") ].

(** Two buttons, the second mapped to [cancel]; the first was pushed. *)
Definition go_stop : LuaDialog :=
  {| controls := [];
     buttons := [(-1, "Go"); (BTN_CANCEL, "Stop")];
     use_buttons := true;
     button_pushed := 0 |}.

(** One control of each serialisable class, and a label. *)
Definition all_classes : LuaDialog :=
  {| controls :=
       [ Label (named "l") "a label";
         Edit (named "e|1") "x:y";
         Color (named "c") "#FF0000" false;
         Textbox (named "t") "line#1";
         IntEdit (named "i") "" (-42) C.INT_MIN C.INT_MAX;
         FloatEdit (named "f") "" 3 0 10 1;
         Dropdown (named "d") ["a"; "b"] "b";
         Checkbox (named "k") "tick" false ];
     buttons := [(BTN_OK, "OK"); (BTN_CANCEL, "Cancel")];
     use_buttons := true;
     button_pushed := -1 |}.

(** Two edits and a checkbox under one name, and an edit under another. *)
Definition shared_name : LuaDialog :=
  {| controls :=
       [ Edit (named "x") "one";
         Checkbox (named "x") "" false;
         Edit (named "y") "other";
         Edit (named "x") "two" ];
     buttons := [(BTN_OK, "OK"); (BTN_CANCEL, "Cancel")];
     use_buttons := false;
     button_pushed := -1 |}.

End Whole.

(** ** Notions for the properties beyond the claims *)

Section Notions.

Context `{P : Platform}.

(** An [int]. *)
Definition in_int (z : Z) : Prop := C.INT_MIN <= z <= C.INT_MAX.

(** The class names the dispatch of [LuaDialog::LuaDialog] knows, in the
    order it tests them. *)
Definition control_classes : list string :=
  [ "label"; "edit"; "intedit"; "floatedit"; "textbox"; "dropdown"; "checkbox";
    "color"; "coloralpha"; "alpha" ].

(** No pair of the table has the string key [k]. *)
Definition key_absent (k : string) (t : list (LuaValue * LuaValue)) : bool :=
  forallb (fun e => negb (has_key k e)) t.


(** The control with its value member blanked: what [UnserialiseValue] has no
    hand in. *)
Definition without_value (control : Control) : Control :=
  match control with
  | Label b l => Label b l
  | Edit b _ => Edit b EmptyString
  | Color b _ alpha => Color b (Color_of_string EmptyString) alpha
  | Textbox b _ => Textbox b EmptyString
  | IntEdit b text _ min max => IntEdit b text 0 min max
  | FloatEdit b text _ min max step => FloatEdit b text double_zero min max step
  | Dropdown b items _ => Dropdown b items EmptyString
  | Checkbox b l _ => Checkbox b l false
  end.

(** The classes whose serialised value is printed and read in this file and
    by the codec alone; for the integer edit, the value is an [int]. *)
Definition self_contained (control : Control) : Prop :=
  match control with
  | Label _ _ | Edit _ _ | Textbox _ _ | Dropdown _ _ _ | Checkbox _ _ _ => True
  | IntEdit _ _ value _ _ => in_int value
  | Color _ _ _ | FloatEdit _ _ _ _ _ _ => False
  end.

(** The value of a dropdown that has items is one of them. *)
Definition value_among_items (control : Control) : Prop :=
  match control with
  | Dropdown _ items value => items = [] \/ In value items
  | _ => True
  end.

(** What the tokens, handed in turn, make of one control: a token with a
    separator whose decoded name is the control's sets its value. *)
Definition apply_token (control : Control) (tok : string) : Control :=
  if Str.contains ":" tok
     && String.eqb (control_name control)
                   (Codec.inline_string_decode (Str.before ":" tok))
     && CanSerialiseValue control
  then UnserialiseValue control (Str.after ":" tok)
  else control.

(** Handing a control what it serialises gives the control back. *)
Definition value_round_trips (control : Control) : Prop :=
  UnserialiseValue control (SerialiseValue control) = control.

(** The names of the controls that serialise, in order. *)
Definition serialisable_names (controls : list Control) : list string :=
  map control_name (filter CanSerialiseValue controls).

(** The last control stored under the key [k] by [LuaReadBack]. *)
Definition last_named (k : string) (controls : list Control) : option Control :=
  find (fun control => String.eqb (Str.c_str (control_name control)) k) (rev controls).

End Notions.

(** ** Inputs to run the properties on *)

Module Samples.

#[local] Existing Instance Whole.platform.

(** Two edits that differ in the case of their class name only. *)
Definition upper_edit : list (LuaValue * LuaValue) :=
  [ (LString "class", LString "EDIT");
    (LString "name", LString "e");
    (LString "value", LString "v") ].

Definition lower_edit : list (LuaValue * LuaValue) :=
  [ (LString "class", LString "edit");
    (LString "name", LString "e");
    (LString "value", LString "v") ].

(** A control table without a class, and one with a class that is no
    control. *)
Definition classless : list (LuaValue * LuaValue) :=
  [ (LString "name", LString "n") ].

Definition bogus : list (LuaValue * LuaValue) :=
  [ (LString "class", LString "bogus"); (LString "name", LString "n") ].

(** The labels "Go" and "Stop", and an id map that makes "Stop" the cancel
    button. *)
Definition go_stop_labels : LuaValue :=
  LTable [ array_entry 1 (LString "Go"); array_entry 2 (LString "Stop") ].

Definition stop_cancels : LuaValue :=
  LTable [ (LString "cancel", LString "Stop") ].

(** The dialogs the constructor makes of them, without controls. *)
Definition mapped : LuaDialog :=
  {| controls := [];
     buttons := [(-1, "Go"); (BTN_CANCEL, "Stop")];
     use_buttons := true;
     button_pushed := -1 |}.

Definition unmapped : LuaDialog :=
  {| controls := [];
     buttons := [(-1, "Go"); (-1, "Stop")];
     use_buttons := true;
     button_pushed := -1 |}.

(** A dialog with one dropdown, made from [Whole.stale_dropdown]. *)
Definition one_dropdown : LuaDialog :=
  {| controls := [ Dropdown (named "d") ["a"; "b"] "a" ];
     buttons := [(BTN_OK, "OK"); (BTN_CANCEL, "Cancel")];
     use_buttons := false;
     button_pushed := -1 |}.

(** Dropdowns over the items of [Whole.dropdown_items] whose value is one of
    them, and a dropdown whose list of items is empty. *)
Definition member_dropdown : list (LuaValue * LuaValue) :=
  [ (LString "class", LString "dropdown");
    (LString "name", LString "d");
    (LString "items", LTable Whole.dropdown_items);
    (LString "value", LString "b") ].

Definition empty_dropdown : list (LuaValue * LuaValue) :=
  [ (LString "class", LString "dropdown");
    (LString "name", LString "d");
    (LString "items", LTable []);
    (LString "value", LString "z") ].


(** An integer edit holding -42. *)
Definition minus_42 : Control :=
  IntEdit (named "i") "" (-42) C.INT_MIN C.INT_MAX.

(** A list of items with entries that are no strings. *)
Definition mixed_items : list (LuaValue * LuaValue) :=
  [ array_entry 1 (LString "a"); array_entry 2 (LBoolean true);
    array_entry 3 (LNumber 7); array_entry 4 (LTable []) ].

End Samples.

(** ** Theorems: the codec *)

Import Codec.

Lemma is_special_cases (c : ascii) :
  is_special c = true -> c = "|"%char \/ c = ":"%char \/ c = "#"%char.
Proof.
  unfold is_special, escape_char. intros H.
  apply orb_true_iff in H as [H | H]; [apply orb_true_iff in H as [H | H] |];
    apply Ascii.eqb_eq in H; auto.
Qed.

Lemma not_special_not_escape (c : ascii) :
  is_special c = false -> Ascii.eqb c escape_char = false.
Proof.
  unfold is_special. intros H.
  apply orb_false_iff in H as [_ H]. exact H.
Qed.

Lemma decode_escape (c : ascii) (tail : string) :
  is_special c = true ->
  inline_string_decode (escape c tail) = String c (inline_string_decode tail).
Proof.
  intros H. destruct (is_special_cases c H) as [-> | [-> | ->]]; reflexivity.
Qed.

Lemma decode_encode_string (s : string) :
  inline_string_decode (inline_string_encode s) = s.
Proof.
  induction s as [| c rest IH]; [reflexivity |].
  cbn [inline_string_encode].
  destruct (is_special c) eqn:Hc.
  - rewrite decode_escape by exact Hc. now rewrite IH.
  - cbn [inline_string_decode].
    rewrite (not_special_not_escape c Hc). now rewrite IH.
Qed.

(** C1. Codec round trip: for every string [s], the empty string and strings
    holding the delimiter, the separator and the escape character included,
    decoding the encoding of [s] gives [s] back. *)
Theorem decode_encode (s : string) :
  inline_string_decode (inline_string_encode s) = s.
Proof. exact (decode_encode_string s). Qed.

(** ** Lemmas on strings *)

Lemma append_nil_r (s : string) : s ++ "" = s.
Proof. induction s as [| c s IH]; cbn; [reflexivity | now rewrite IH]. Qed.

Lemma append_assoc (s t u : string) : (s ++ t) ++ u = s ++ (t ++ u).
Proof. induction s as [| c s IH]; cbn; [reflexivity | now rewrite IH]. Qed.

Lemma forallb_append (p : ascii -> bool) (s t : string) :
  Str.forallb p (s ++ t) = Str.forallb p s && Str.forallb p t.
Proof.
  induction s as [| c s IH]; cbn; [reflexivity |].
  now rewrite IH, andb_assoc.
Qed.


Lemma string_of_uint_plain (d : Decimal.uint) :
  plain (NilEmpty.string_of_uint d) = true.
Proof. induction d; cbn; auto. Qed.

Lemma to_string_plain (value : Z) : plain (C.to_string value) = true.
Proof.
  unfold C.to_string, NilZero.string_of_int.
  destruct (Z.to_int value) as [d | d]; unfold NilZero.string_of_uint.
  - destruct d; try reflexivity; apply string_of_uint_plain.
  - change (plain (String "-" (match d with
                               | Decimal.Nil => "0"
                               | _ => NilEmpty.string_of_uint d
                               end)) = true).
    destruct d; try reflexivity; apply (string_of_uint_plain).
Qed.

(** ** Theorems: serialising *)

Section SerialiseTheorems.

Context `{P : Platform}.

Lemma empty_append (s t : string) : Str.empty (s ++ t) = Str.empty s && Str.empty t.
Proof. destruct s; reflexivity. Qed.

Lemma empty_true (s : string) : Str.empty s = true -> s = EmptyString.
Proof. destruct s; [reflexivity | discriminate]. Qed.

Lemma emitted_entry_not_empty (control : Control) :
  Str.empty (emitted_entry control) = false.
Proof.
  unfold emitted_entry. rewrite empty_append.
  destruct (Str.empty (inline_string_encode (control_name control))); reflexivity.
Qed.



Lemma serialise_control_entry (res : string) (control : Control) :
  CanSerialiseValue control = true ->
  serialise_control res control =
  (if Str.empty res then res else res ++ "|") ++ emitted_entry control.
Proof.
  intros Hcan. unfold serialise_control, emitted_entry.
  rewrite Hcan. destruct (Str.empty res); reflexivity.
Qed.

(** The loop of [Serialise], started on [res], against the join of the
    entries. *)
Lemma fold_serialise_control (cs : list Control) (res : string) :
  fold_left serialise_control cs res =
  match map emitted_entry (filter CanSerialiseValue cs) with
  | [] => res
  | es => if Str.empty res then String.concat "|" es
          else res ++ "|" ++ String.concat "|" es
  end.
Proof.
  revert res.
  induction cs as [| c cs IH]; intros res; [reflexivity |].
  cbn [fold_left filter]. rewrite IH.
  destruct (CanSerialiseValue c) eqn:Hcan.
  - rewrite (serialise_control_entry res c Hcan).
    cbn [map]. set (es := map emitted_entry (filter CanSerialiseValue cs)).
    assert (Hne : Str.empty ((if Str.empty res then res else res ++ "|") ++ emitted_entry c)
                  = false).
    { rewrite empty_append, emitted_entry_not_empty. apply andb_false_r. }
    rewrite Hne.
    destruct (Str.empty res) eqn:Hres.
    + apply empty_true in Hres. subst res. cbn [append].
      destruct es; reflexivity.
    + destruct es as [| e es'].
      * cbn [String.concat]. now rewrite append_assoc.
      * cbn [String.concat]. now rewrite !append_assoc.
  - unfold serialise_control. rewrite Hcan. reflexivity.
Qed.



End SerialiseTheorems.

(** ** Theorems: the dialog *)

Section DialogTheorems.

Context `{P : Platform}.

Lemma LuaDialog_ctor_three (n5 n0 n10 : lua_Number) (include_buttons : bool) :
  lua_number2integer n5 = 5 ->
  lua_number2integer n0 = 0 ->
  lua_number2integer n10 = 10 ->
  LuaDialog_ctor (three_controls n5 n0 n10) LNil LNil include_buttons
  = Ok (three_dialog n5 include_buttons).
Proof.
  intros H5 H0 H10.
  unfold LuaDialog_ctor, three_controls.
  cbn -[C.wrap_int Z.geb].
  unfold IntEdit_ctor, get_field_int, get_if_right_type_int.
  cbn -[C.wrap_int Z.geb].
  rewrite H5, H0, H10, !andb_false_r.
  reflexivity.
Qed.

Lemma Serialise_three (n5 : lua_Number) (include_buttons : bool) :
  Serialise (three_dialog n5 include_buttons) = "a:hello#7Cworld|b:5|c:1".
Proof. reflexivity. Qed.

Lemma Unserialise_three (n5 : lua_Number) (include_buttons : bool) :
  Unserialise (three_dialog n5 include_buttons) "a:hello#7Cworld|b:5|c:1"
  = three_dialog n5 include_buttons.
Proof. reflexivity. Qed.

(** C2. The dialog with the controls [Edit("a", "hello|world")],
    [IntEdit("b", 5, min = 0, max = 10)] and [Checkbox("c", true)] is
    constructed, serialises to ["a:hello#7Cworld|b:5|c:1"], and a fresh
    dialog constructed from the same descriptors and handed that string by
    [Unserialise] reads back what the original reads back: "hello|world"
    under "a", 5 under "b" and true under "c". *)
Theorem Serialise_Unserialise_round_trip
  (n5 n0 n10 : lua_Number) (include_buttons : bool) :
  lua_number2integer n5 = 5 ->
  lua_number2integer n0 = 0 ->
  lua_number2integer n10 = 10 ->
  exists d,
    LuaDialog_ctor (three_controls n5 n0 n10) LNil LNil include_buttons = Ok d /\
    Serialise d = "a:hello#7Cworld|b:5|c:1" /\
    (forall fresh,
        LuaDialog_ctor (three_controls n5 n0 n10) LNil LNil include_buttons = Ok fresh ->
        LuaReadBack (Unserialise fresh (Serialise d)) = LuaReadBack d) /\
    LuaReadBack d =
    Ok {| activation := if include_buttons then Some (LBoolean false) else None;
          values := [ (LString "a", LString "hello|world");
                      (LString "b", lua_pushinteger 5);
                      (LString "c", LBoolean true) ] |}.
Proof.
  intros H5 H0 H10.
  exists (three_dialog n5 include_buttons).
  rewrite (LuaDialog_ctor_three n5 n0 n10 include_buttons H5 H0 H10).
  repeat split.
  - intros fresh [= <-]. now rewrite Serialise_three, Unserialise_three.
  - destruct include_buttons; reflexivity.
Qed.

Lemma PushButton_valid (d : LuaDialog) (button : Z) :
  button_pushed_valid (PushButton d button).
Proof.
  unfold button_pushed_valid, PushButton. cbn.
  destruct (button =? -1) eqn:Hnone; cbn.
  - left. now apply Z.eqb_eq.
  - destruct (button <? 0) eqn:Hneg; cbn; [now left |].
    destruct (button >=? Z.of_nat (List.length (buttons d))) eqn:Hbig; [now left |].
    right. apply Z.ltb_ge in Hneg. rewrite Z.geb_leb in Hbig.
    apply Z.leb_gt in Hbig. lia.
Qed.

Lemma LuaDialog_ctor_valid (arg1 arg2 arg3 : LuaValue) (include_buttons : bool)
  (d : LuaDialog) :
  LuaDialog_ctor arg1 arg2 arg3 include_buttons = Ok d -> button_pushed_valid d.
Proof.
  unfold LuaDialog_ctor. intros Hctor. left.
  destruct (negb (lua_istable arg1)); [discriminate |].
  destruct (lua_for_each arg1) as [entries | |]; cbn in Hctor; try discriminate.
  destruct (for_each control_entry entries) as [cs | |]; cbn in Hctor; try discriminate.
  destruct (if include_buttons && lua_istable arg2
            then labels <- lua_for_each arg2;; for_each button_entry labels
            else Ok []) as [bs | |]; cbn in Hctor; try discriminate.
  destruct (if include_buttons && lua_istable arg3
            then pairs <- lua_for_each arg3;; fold_each button_id_entry pairs bs
            else Ok bs) as [bs' | |]; cbn in Hctor; try discriminate.
  now injection Hctor as <-.
Qed.

Lemma Unserialise_valid (d : LuaDialog) (serialised : string) :
  button_pushed_valid d -> button_pushed_valid (Unserialise d serialised).
Proof. intros H. exact H. Qed.

Lemma button_at_valid (bs : list (Z * string)) (i : Z) :
  0 <= i < Z.of_nat (List.length bs) -> exists btn, button_at bs i = Ok btn.
Proof.
  intros Hi. unfold button_at.
  destruct (i <? 0) eqn:Hneg; [apply Z.ltb_lt in Hneg; lia |].
  destruct (nth_error bs (Z.to_nat i)) as [btn |] eqn:Hnth; [now exists btn |].
  apply nth_error_None in Hnth. lia.
Qed.

Lemma button_at_nth_error (bs : list (Z * string)) (i : Z) :
  0 <= i ->
  button_at bs i = match nth_error bs (Z.to_nat i) with
                   | Some btn => Ok btn
                   | None => Undefined
                   end.
Proof.
  intros Hi. unfold button_at.
  destruct (i <? 0) eqn:Hneg; [apply Z.ltb_lt in Hneg; lia | reflexivity].
Qed.

(** C4. With [use_buttons], [LuaReadBack] gives the activation value
    [false] exactly when no button was pushed or the entry of [buttons] at
    the pushed position has the id [BTN_CANCEL]; when a button was pushed,
    [buttons] has an entry at its position, and if the id of that entry is
    not [BTN_CANCEL] the activation value is its label, pushed as a Lua
    string.  Without [use_buttons] there is no activation value, and one
    value is returned in place of two. *)
Theorem LuaReadBack_activation (d : LuaDialog) :
  button_pushed_valid d ->
  exists r,
    LuaReadBack d = Ok r /\
    (use_buttons d = false -> activation r = None /\ LuaReadBack_count d = 1) /\
    (use_buttons d = true ->
     LuaReadBack_count d = 2 /\
     (activation r = Some (LBoolean false) <-> none_or_cancel d) /\
     (button_pushed d <> -1 ->
      exists id label,
        nth_error (buttons d) (Z.to_nat (button_pushed d)) = Some (id, label) /\
        (id = BTN_CANCEL -> activation r = Some (LBoolean false)) /\
        (id <> BTN_CANCEL -> activation r = Some (lua_pushstring label)))).
Proof.
  intros Hvalid. unfold LuaReadBack, read_back_button, LuaReadBack_count, none_or_cancel.
  destruct (use_buttons d) eqn:Huse.
  - destruct (button_pushed d =? -1) eqn:Hnone.
    + apply Z.eqb_eq in Hnone. eexists. split; [reflexivity |].
      split; [discriminate |]. intros _. cbn. split; [reflexivity |]. split.
      * split; auto.
      * intros Hnot. contradiction.
    + apply Z.eqb_neq in Hnone.
      destruct Hvalid as [Hv | Hv]; [contradiction |].
      assert (Hpos : 0 <= button_pushed d) by lia.
      rewrite (button_at_nth_error _ _ Hpos).
      destruct (nth_error (buttons d) (Z.to_nat (button_pushed d)))
        as [[id label] |] eqn:Hnth;
        [| apply nth_error_None in Hnth; lia].
      cbn.
      destruct (id =? BTN_CANCEL) eqn:Hid.
      * apply Z.eqb_eq in Hid. subst id. eexists. split; [reflexivity |].
        split; [discriminate |]. intros _. cbn. split; [reflexivity |]. split.
        -- split; auto. intros _. right. now exists label.
        -- intros _. exists BTN_CANCEL, label.
           split; [reflexivity |]. split; [reflexivity | intros Hne; now elim Hne].
      * apply Z.eqb_neq in Hid. eexists. split; [reflexivity |].
        split; [discriminate |]. intros _. cbn. split; [reflexivity |]. split.
        -- split; [discriminate |].
           intros [Hn | [label' [_ Hlabel']]]; [contradiction | congruence].
        -- intros _. exists id, label.
           split; [reflexivity |]. split; [intros Heq; contradiction | reflexivity].
  - eexists. split; [reflexivity |]. split; [auto | discriminate].
Qed.

(** C5. An integer edit whose loaded [min] is not below its loaded [max]
    is constructed without an error, and its range is the whole of [int],
    from [INT_MIN] to [INT_MAX]. *)
Theorem IntEdit_range_snap (key : LuaValue) (t : list (LuaValue * LuaValue)) :
  Str.to_lower (get_field t "class") = "intedit" ->
  get_field_int t "min" C.INT_MIN >= get_field_int t "max" C.INT_MAX ->
  control_entry (key, LTable t) =
  Ok (IntEdit (LuaDialogControl_ctor t) (Edit_text t) (get_field_int t "value" 0)
              C.INT_MIN C.INT_MAX).
Proof.
  intros Hclass Hrange. unfold control_entry, make_control. cbn [snd].
  rewrite Hclass. cbn. unfold IntEdit_ctor.
  destruct (get_field_int t "min" C.INT_MIN >=? get_field_int t "max" C.INT_MAX) eqn:Hge;
    [reflexivity |].
  rewrite Z.geb_leb in Hge. apply Z.leb_gt in Hge. lia.
Qed.

Lemma member_false (value : string) (items : list string) :
  member value items = false <-> ~ In value items.
Proof.
  unfold member. split.
  - intros H Hin. assert (Ht : existsb (String.eqb value) items = true).
    { apply existsb_exists. exists value. split; [exact Hin | apply String.eqb_refl]. }
    congruence.
  - intros Hnot. destruct (existsb (String.eqb value) items) eqn:Hex; [| reflexivity].
    apply existsb_exists in Hex as [v [Hin Heq]]. apply String.eqb_eq in Heq.
    subst v. contradiction.
Qed.

Lemma string_entries_filter (entries : list (LuaValue * LuaValue)) :
  map Some (string_entries entries)
  = map lua_tostring (filter lua_isstring (map snd entries)).
Proof.
  induction entries as [| [k v] entries IH]; [reflexivity |].
  cbn [string_entries map snd filter].
  destruct v; cbn [lua_isstring lua_tostring map]; try exact IH; now rewrite IH.
Qed.

Lemma map_Some_injective (A : Type) (l l' : list A) :
  map Some l = map Some l' -> l = l'.
Proof.
  revert l'. induction l as [| a l IH]; intros [| a' l']; cbn; try discriminate.
  - reflexivity.
  - intros [= -> Hrest]. now rewrite (IH l' Hrest).
Qed.

Lemma get_field_tostring (t : list (LuaValue * LuaValue)) (name s : string) :
  lua_tostring (lua_getfield t name) = Some s -> get_field t name = s.
Proof.
  unfold get_field, get_field_string, get_if_right_type_string.
  destruct (lua_getfield t name); cbn; try discriminate; now intros [= <-].
Qed.

(** C6. A dropdown whose [items] field is a table.  The items of the
    dropdown are the entries of that table that are strings, in the order of
    the table; the value read is the one the [value] field holds.  When there
    are items and the value read is not one of them, the value of the
    dropdown is the first item; when the value read is one of the items, or
    there are no items, it is the value read. *)
Theorem Dropdown_membership_fix
  (t entries : list (LuaValue * LuaValue)) :
  lua_getfield t "items" = LTable entries ->
  exists items value',
    Dropdown_ctor t = Ok (Dropdown (LuaDialogControl_ctor t) items value') /\
    map Some items = map lua_tostring (filter lua_isstring (map snd entries)) /\
    (forall s, lua_tostring (lua_getfield t "value") = Some s -> get_field t "value" = s) /\
    (forall first rest,
        items = first :: rest ->
        ~ In (get_field t "value") items ->
        value' = first) /\
    (In (get_field t "value") items \/ items = [] -> value' = get_field t "value").
Proof.
  intros Hitems. unfold Dropdown_ctor, read_string_array. rewrite Hitems. cbn.
  eexists. eexists. split; [reflexivity |].
  split; [apply string_entries_filter |].
  split; [intros s; apply get_field_tostring |].
  unfold Dropdown_value. split.
  - intros first rest Hcons Hnot. rewrite Hcons in *.
    apply member_false in Hnot. now rewrite Hnot.
  - intros [Hin | Hnil].
    + destruct (string_entries entries) as [| first rest] eqn:Hcons; [reflexivity |].
      destruct (member (get_field t "value") (first :: rest)) eqn:Hmem; [reflexivity |].
      apply member_false in Hmem. contradiction.
    + now rewrite Hnil.
Qed.

Lemma button_id_entry_nil (entry : LuaValue * LuaValue) (bs : list (Z * string)) :
  button_id_entry [] entry <> Ok bs.
Proof.
  unfold button_id_entry.
  destruct (check_string (fst entry)); cbn; try discriminate.
  destruct (check_string (snd entry)); cbn; discriminate.
Qed.

Lemma fold_button_ids_nil (pairs : list (LuaValue * LuaValue)) (bs : list (Z * string)) :
  fold_each button_id_entry pairs [] = Ok bs -> bs = [].
Proof.
  destruct pairs as [| entry rest]; cbn.
  - now intros [= <-].
  - destruct (button_id_entry [] entry) as [bs' | msg |] eqn:Hstep; cbn; try discriminate.
    now apply button_id_entry_nil in Hstep.
Qed.

(** C7. A dialog constructed with buttons included and no button label
    supplied has exactly two buttons: [(BTN_OK, "OK")], then
    [(BTN_CANCEL, "Cancel")]. *)
Theorem default_buttons (arg1 arg2 arg3 : LuaValue) (d : LuaDialog) :
  LuaDialog_ctor arg1 arg2 arg3 true = Ok d ->
  lua_istable arg2 = false \/ arg2 = LTable [] ->
  buttons d = [(BTN_OK, "OK"); (BTN_CANCEL, "Cancel")].
Proof.
  intros Hctor Hlabels. unfold LuaDialog_ctor in Hctor.
  destruct (lua_istable arg1); cbn in Hctor; [| discriminate].
  destruct (lua_for_each arg1) as [entries | |]; cbn in Hctor; try discriminate.
  destruct (for_each control_entry entries) as [cs | |]; cbn in Hctor; try discriminate.
  assert (Hnone : (if lua_istable arg2
                   then labels <- lua_for_each arg2;; for_each button_entry labels
                   else Ok []) = Ok []).
  { destruct Hlabels as [Hno | ->]; [now rewrite Hno | reflexivity]. }
  rewrite Hnone in Hctor. cbn in Hctor.
  destruct (lua_istable arg3).
  - destruct (lua_for_each arg3) as [pairs | |]; cbn in Hctor; try discriminate.
    destruct (fold_each button_id_entry pairs []) as [bs | |] eqn:Hfold; cbn in Hctor;
      try discriminate.
    apply fold_button_ids_nil in Hfold. subst bs.
    now injection Hctor as <-.
  - cbn in Hctor. now injection Hctor as <-.
Qed.



Lemma assign_first_labels (label : string) (id : Z) (bs bs' : list (Z * string)) :
  assign_first label id bs = Some bs' -> map snd bs' = map snd bs.
Proof.
  revert bs'. induction bs as [| b bs IH]; cbn; intros bs'; [discriminate |].
  destruct (String.eqb (snd b) label).
  - now intros [= <-].
  - destruct (assign_first label id bs) as [bs0 |]; cbn; [| discriminate].
    intros [= <-]. cbn. now rewrite (IH bs0).
Qed.

Lemma button_id_entry_labels (bs bs' : list (Z * string)) (entry : LuaValue * LuaValue) :
  button_id_entry bs entry = Ok bs' -> map snd bs' = map snd bs.
Proof.
  unfold button_id_entry.
  destruct (check_string (fst entry)) as [k | |]; cbn; try discriminate.
  destruct (check_string (snd entry)) as [l | |]; cbn; try discriminate.
  destruct (assign_first l (string_to_button_id k) bs) as [bs0 |] eqn:Ha; [| discriminate].
  destruct (fst entry); try discriminate.
  intros [= <-]. now apply assign_first_labels in Ha.
Qed.

Lemma fold_button_ids_labels (pairs : list (LuaValue * LuaValue)) (bs bs' : list (Z * string)) :
  fold_each button_id_entry pairs bs = Ok bs' -> map snd bs' = map snd bs.
Proof.
  revert bs. induction pairs as [| entry rest IH]; cbn; intros bs.
  - now intros [= <-].
  - destruct (button_id_entry bs entry) as [bs0 | |] eqn:Hstep; cbn; try discriminate.
    intros Hrest. rewrite (IH _ Hrest). now apply button_id_entry_labels in Hstep.
Qed.




Lemma UnserialiseValue_name (control : Control) (serialised : string) :
  control_name (UnserialiseValue control serialised) = control_name control.
Proof. destruct control; reflexivity. Qed.

Lemma hand_value_names (n value : string) (cs : list Control) :
  map control_name (hand_value n value cs) = map control_name cs.
Proof.
  unfold hand_value. induction cs as [| c cs IH]; cbn; [reflexivity |].
  rewrite IH. f_equal.
  destruct (String.eqb (control_name c) n && CanSerialiseValue c);
    [apply UnserialiseValue_name | reflexivity].
Qed.

Lemma unserialise_token_names (cs : list Control) (tok : string) :
  map control_name (unserialise_token cs tok) = map control_name cs.
Proof.
  unfold unserialise_token.
  destruct (negb (Str.contains ":" tok)); [reflexivity | apply hand_value_names].
Qed.

Lemma fold_unserialise_names (toks : list string) (cs : list Control) :
  map control_name (fold_left unserialise_token toks cs) = map control_name cs.
Proof.
  revert cs. induction toks as [| tok toks IH]; intros cs; cbn; [reflexivity |].
  now rewrite IH, unserialise_token_names.
Qed.

Lemma hand_value_no_match (n value : string) (cs : list Control) :
  (forall c, In c cs -> control_name c = n -> CanSerialiseValue c = false) ->
  hand_value n value cs = cs.
Proof.
  unfold hand_value. induction cs as [| c cs IH]; cbn; intros Hno; [reflexivity |].
  rewrite IH by (intros c' Hin; apply Hno; now right). f_equal.
  destruct (String.eqb (control_name c) n) eqn:Hn; [| reflexivity].
  apply String.eqb_eq in Hn. now rewrite (Hno c (or_introl eq_refl) Hn).
Qed.

(** A token is passed over when it has no separator, or when no control that
    serialises has the name it decodes to. *)
Lemma unserialise_token_skipped (cs : list Control) (tok : string) :
  Str.contains ":" tok = false \/
  (forall c, In c cs ->
             control_name c = inline_string_decode (Str.before ":" tok) ->
             CanSerialiseValue c = false) ->
  unserialise_token cs tok = cs.
Proof.
  unfold unserialise_token. intros [Hsep | Hno].
  - now rewrite Hsep.
  - destruct (negb (Str.contains ":" tok)); [reflexivity | now apply hand_value_no_match].
Qed.

Lemma split_tokens_single (c : ascii) (s : string) :
  Str.contains c s = false -> split_tokens c s = [s].
Proof.
  induction s as [| a s IH]; cbn; [reflexivity |].
  intros H. apply orb_false_iff in H as [Ha Hs].
  now rewrite Ha, (IH Hs).
Qed.

(** C10. The text of an edit (and of a text box): when the [text] key is
    present as a string the text is that string, whatever the [value] key
    holds, so [text] wins when both are present; when the [text] key is not a
    string and the [value] key is, the text is the string of [value]. *)
Theorem Edit_text_precedence (t : list (LuaValue * LuaValue)) :
  Edit_ctor t = Edit (LuaDialogControl_ctor t) (Edit_text t) /\
  Textbox_ctor t = Textbox (LuaDialogControl_ctor t) (Edit_text t) /\
  (lua_isstring (lua_getfield t "text") = true ->
   lua_tostring (lua_getfield t "text") = Some (Edit_text t)) /\
  (lua_isstring (lua_getfield t "text") = false ->
   lua_isstring (lua_getfield t "value") = true ->
   lua_tostring (lua_getfield t "value") = Some (Edit_text t)).
Proof.
  split; [reflexivity | split; [reflexivity |]].
  unfold Edit_text, get_field, get_field_string, get_if_right_type_string.
  split.
  - intros Htext. rewrite Htext.
    destruct (lua_getfield t "text"); cbn in *; try discriminate; reflexivity.
  - intros Htext Hvalue. rewrite Htext, Hvalue.
    destruct (lua_getfield t "value"); cbn in *; try discriminate; reflexivity.
Qed.

End DialogTheorems.

(** ** The theorems at concrete inputs *)

Lemma Serialise_Unserialise_round_trip_witness :
  (@lua_number2integer Whole.platform 5 = 5 /\
   @lua_number2integer Whole.platform 0 = 0 /\
   @lua_number2integer Whole.platform 10 = 10) /\
  exists d,
    @LuaDialog_ctor Whole.platform (@three_controls Whole.platform 5 0 10) LNil LNil true = Ok d /\
    Serialise d = "a:hello#7Cworld|b:5|c:1" /\
    (forall fresh,
        @LuaDialog_ctor Whole.platform (@three_controls Whole.platform 5 0 10) LNil LNil true = Ok fresh ->
        LuaReadBack (Unserialise fresh (Serialise d)) = LuaReadBack d) /\
    LuaReadBack d =
    Ok {| activation := Some (LBoolean false);
          values := [ (LString "a", LString "hello|world");
                      (LString "b", lua_pushinteger 5);
                      (LString "c", LBoolean true) ] |}.
Proof.
  split; [repeat split |].
  apply (@Serialise_Unserialise_round_trip Whole.platform 5 0 10 true); reflexivity.
Defined.


Lemma LuaReadBack_activation_witness :
  (exists d,
      @LuaDialog_ctor Whole.platform (LTable [])
        (LTable [array_entry 1 (LString "Go"); array_entry 2 (LString "Stop")])
        (LTable [(LString "cancel", LString "Stop")]) true = Ok d /\
      PushButton d 0 = Whole.go_stop) /\
  button_pushed_valid Whole.go_stop /\
  (exists r,
      LuaReadBack Whole.go_stop = Ok r /\ activation r = Some (LString "Go")) /\
  (exists r,
      LuaReadBack (PushButton Whole.go_stop 1) = Ok r /\
      activation r = Some (LBoolean false)) /\
  (exists r,
      LuaReadBack (PushButton Whole.go_stop (-1)) = Ok r /\
      activation r = Some (LBoolean false)).
Proof.
  assert (Hgo : button_pushed_valid Whole.go_stop) by (right; cbn; lia).
  assert (Hstop : button_pushed_valid (PushButton Whole.go_stop 1)) by (right; cbn; lia).
  assert (Hnone : button_pushed_valid (PushButton Whole.go_stop (-1))) by (left; reflexivity).
  split; [eexists; split; reflexivity |].
  split; [exact Hgo |].
  split; [| split].
  - destruct (@LuaReadBack_activation Whole.platform _ Hgo) as [r [Hread [_ Huse]]].
    destruct (Huse eq_refl) as [_ [_ Hpushed]].
    destruct (Hpushed ltac:(discriminate)) as [id [label [Hnth [_ Hlabel]]]].
    injection Hnth as <- <-.
    exists r. split; [exact Hread |]. apply Hlabel. discriminate.
  - destruct (@LuaReadBack_activation Whole.platform _ Hstop) as [r [Hread [_ Huse]]].
    destruct (Huse eq_refl) as [_ [Hfalse _]].
    exists r. split; [exact Hread |]. apply Hfalse.
    right. exists "Stop"%string. split; [cbn; lia | reflexivity].
  - destruct (@LuaReadBack_activation Whole.platform _ Hnone) as [r [Hread [_ Huse]]].
    destruct (Huse eq_refl) as [_ [Hfalse _]].
    exists r. split; [exact Hread |]. apply Hfalse. left. reflexivity.
Defined.

Lemma IntEdit_range_snap_witness :
  (Str.to_lower (get_field Whole.inverted_intedit "class") = "intedit" /\
   get_field_int Whole.inverted_intedit "min" C.INT_MIN
   >= get_field_int Whole.inverted_intedit "max" C.INT_MAX) /\
  control_entry (LNil, LTable Whole.inverted_intedit) =
  Ok (IntEdit (named "n") "7" 7 C.INT_MIN C.INT_MAX).
Proof.
  assert (Hclass : Str.to_lower (get_field Whole.inverted_intedit "class") = "intedit")
    by reflexivity.
  assert (Hrange : get_field_int Whole.inverted_intedit "min" C.INT_MIN
                   >= get_field_int Whole.inverted_intedit "max" C.INT_MAX)
    by (vm_compute; discriminate).
  split; [split; assumption |].
  exact (@IntEdit_range_snap Whole.platform LNil Whole.inverted_intedit Hclass Hrange).
Defined.

Lemma Dropdown_membership_fix_witness :
  lua_getfield Whole.stale_dropdown "items" = LTable Whole.dropdown_items /\
  Dropdown_ctor Whole.stale_dropdown = Ok (Dropdown (named "d") ["a"; "b"] "a") /\
  Dropdown_ctor Samples.member_dropdown = Ok (Dropdown (named "d") ["a"; "b"] "b") /\
  Dropdown_ctor Samples.empty_dropdown = Ok (Dropdown (named "d") [] "z").
Proof.
  split; [reflexivity |]. split; [| split].
  - destruct (@Dropdown_membership_fix Whole.platform Whole.stale_dropdown
                Whole.dropdown_items eq_refl)
      as [items [value' [Hctor [Hitems [Hvalue [Hfix _]]]]]].
    rewrite Hctor.
    apply (map_Some_injective _ items ["a"; "b"]%string) in Hitems. subst items.
    rewrite (Hvalue "z"%string eq_refl) in Hfix.
    rewrite (Hfix "a"%string ["b"%string] eq_refl); [reflexivity |].
    intros [H | [H | []]]; discriminate H.
  - destruct (@Dropdown_membership_fix Whole.platform Samples.member_dropdown
                Whole.dropdown_items eq_refl)
      as [items [value' [Hctor [Hitems [Hvalue [_ Hkeep]]]]]].
    rewrite Hctor.
    apply (map_Some_injective _ items ["a"; "b"]%string) in Hitems. subst items.
    rewrite (Hvalue "b"%string eq_refl) in Hkeep.
    rewrite Hkeep; [reflexivity |]. left. right. left. reflexivity.
  - destruct (@Dropdown_membership_fix Whole.platform Samples.empty_dropdown [] eq_refl)
      as [items [value' [Hctor [Hitems [Hvalue [_ Hkeep]]]]]].
    rewrite Hctor.
    apply (map_Some_injective _ items []) in Hitems. subst items.
    rewrite (Hvalue "z"%string eq_refl) in Hkeep.
    rewrite Hkeep; [reflexivity |]. right. reflexivity.
Defined.

Lemma default_buttons_witness :
  (@LuaDialog_ctor Whole.platform (@three_controls Whole.platform 5 0 10) LNil LNil true
   = Ok (@three_dialog Whole.platform 5 true) /\
   (@lua_istable Whole.platform LNil = false \/ @LNil Whole.platform = LTable [])) /\
  buttons (@three_dialog Whole.platform 5 true) = [(BTN_OK, "OK"); (BTN_CANCEL, "Cancel")].
Proof.
  assert (Hctor : @LuaDialog_ctor Whole.platform (@three_controls Whole.platform 5 0 10) LNil LNil true
                  = Ok (@three_dialog Whole.platform 5 true)) by reflexivity.
  assert (Hlabels : @lua_istable Whole.platform LNil = false \/ @LNil Whole.platform = LTable [])
    by (left; reflexivity).
  split; [split; assumption |].
  exact (@default_buttons Whole.platform _ _ _ _ Hctor Hlabels).
Defined.


Lemma Edit_text_precedence_witness :
  @Edit_ctor Whole.platform Whole.edit_both = Edit (named "") "from text" /\
  @Textbox_ctor Whole.platform Whole.edit_value_only = Textbox (named "") "from value" /\
  lua_tostring (lua_getfield Whole.edit_both "text") = Some (Edit_text Whole.edit_both) /\
  lua_tostring (lua_getfield Whole.edit_value_only "value")
  = Some (Edit_text Whole.edit_value_only).
Proof.
  destruct (@Edit_text_precedence Whole.platform Whole.edit_both) as [_ [_ [Hboth _]]].
  destruct (@Edit_text_precedence Whole.platform Whole.edit_value_only) as [_ [_ [_ Hvalue]]].
  split; [reflexivity | split; [reflexivity | split]].
  - apply Hboth. reflexivity.
  - apply Hvalue; reflexivity.
Defined.

(** ** Properties beyond the claims: the C library *)

Lemma digits_of_uint_acc (d : Decimal.uint) (acc : positive) :
  C.digits (Z.pos acc) (NilEmpty.string_of_uint d) = Z.pos (Pos.of_uint_acc d acc).
Proof.
  revert acc. induction d; intros acc; cbn [NilEmpty.string_of_uint C.digits Pos.of_uint_acc];
    [reflexivity | ..];
    change (C.digit_value _) with (Some 0) || change (C.digit_value _) with (Some 1)
    || change (C.digit_value _) with (Some 2) || change (C.digit_value _) with (Some 3)
    || change (C.digit_value _) with (Some 4) || change (C.digit_value _) with (Some 5)
    || change (C.digit_value _) with (Some 6) || change (C.digit_value _) with (Some 7)
    || change (C.digit_value _) with (Some 8) || change (C.digit_value _) with (Some 9);
    cbv iota; rewrite <- IHd; f_equal; lia.
Qed.

Lemma digits_of_uint (d : Decimal.uint) :
  C.digits 0 (NilEmpty.string_of_uint d) = Z.of_N (Pos.of_uint d).
Proof.
  induction d; cbn [NilEmpty.string_of_uint C.digits Pos.of_uint]; [reflexivity | ..];
    change (C.digit_value _) with (Some 0) || change (C.digit_value _) with (Some 1)
    || change (C.digit_value _) with (Some 2) || change (C.digit_value _) with (Some 3)
    || change (C.digit_value _) with (Some 4) || change (C.digit_value _) with (Some 5)
    || change (C.digit_value _) with (Some 6) || change (C.digit_value _) with (Some 7)
    || change (C.digit_value _) with (Some 8) || change (C.digit_value _) with (Some 9);
    cbv iota; try exact IHd;
    match goal with
    | |- C.digits ?k _ = _ => change k with (Z.pos (Z.to_pos k))
    end; rewrite digits_of_uint_acc; reflexivity.
Qed.

Lemma digits_to_uint (p : positive) :
  C.digits 0 (NilEmpty.string_of_uint (Pos.to_uint p)) = Z.pos p.
Proof. now rewrite digits_of_uint, DecimalPos.Unsigned.of_to. Qed.

(** The digits [std::to_string] prints for a positive number start with a
    digit: no white space and no sign for [strtol] to skip. *)
Lemma strtol10_to_uint (p : positive) :
  C.strtol10 (NilEmpty.string_of_uint (Pos.to_uint p)) = C.clamp_long (Z.pos p).
Proof.
  rewrite <- (digits_to_uint p).
  pose proof (DecimalPos.Unsigned.to_uint_nonnil p) as Hnil.
  destruct (Pos.to_uint p); [contradiction | ..]; reflexivity.
Qed.

Lemma c_str_string_of_uint (d : Decimal.uint) :
  Str.c_str (NilEmpty.string_of_uint d) = NilEmpty.string_of_uint d.
Proof. induction d; cbn; [reflexivity | ..]; now rewrite IHd. Qed.

Lemma to_string_pos (p : positive) :
  C.to_string (Z.pos p) = NilEmpty.string_of_uint (Pos.to_uint p).
Proof.
  unfold C.to_string, NilZero.string_of_int, NilZero.string_of_uint. cbn [Z.to_int].
  pose proof (DecimalPos.Unsigned.to_uint_nonnil p) as Hnil.
  destruct (Pos.to_uint p); [contradiction | ..]; reflexivity.
Qed.

Lemma to_string_neg (p : positive) :
  C.to_string (Z.neg p) = String "-" (NilEmpty.string_of_uint (Pos.to_uint p)).
Proof.
  unfold C.to_string, NilZero.string_of_int, NilZero.string_of_uint. cbn [Z.to_int].
  pose proof (DecimalPos.Unsigned.to_uint_nonnil p) as Hnil.
  destruct (Pos.to_uint p); [contradiction | ..]; reflexivity.
Qed.

Lemma c_str_to_string (value : Z) : Str.c_str (C.to_string value) = C.to_string value.
Proof.
  destruct value as [| p | p]; [reflexivity | |].
  - rewrite to_string_pos. apply c_str_string_of_uint.
  - rewrite to_string_neg. cbn. now rewrite c_str_string_of_uint.
Qed.

Lemma wrap_int_in_int (z : Z) : in_int (C.wrap_int z).
Proof.
  unfold in_int, C.wrap_int, C.INT_MIN, C.INT_MAX.
  pose proof (Z.mod_pos_bound (z + 2147483648) 4294967296 eq_refl). lia.
Qed.

Lemma wrap_int_small (z : Z) : in_int z -> C.wrap_int z = z.
Proof.
  unfold in_int, C.wrap_int, C.INT_MIN, C.INT_MAX. intros Hz.
  rewrite Z.mod_small by lia. lia.
Qed.

Lemma strtol10_to_string (value : Z) :
  C.strtol10 (C.to_string value) = C.clamp_long value.
Proof.
  destruct value as [| p | p]; [reflexivity | |].
  - rewrite to_string_pos. apply strtol10_to_uint.
  - rewrite to_string_neg. unfold C.strtol10. cbn [C.skip_spaces].
    change (C.isspace "-") with false. cbv iota.
    now rewrite digits_to_uint.
Qed.

(** What [atoi] reads in what [std::to_string] prints for an [int] is that
    [int]. *)
Lemma atoi_to_string (value : Z) :
  in_int value -> C.atoi (Str.c_str (C.to_string value)) = value.
Proof.
  intros Hv. rewrite c_str_to_string. unfold C.atoi. rewrite strtol10_to_string.
  assert (Hclamp : C.clamp_long value = value).
  { unfold C.clamp_long, C.LONG_MIN, C.LONG_MAX, in_int, C.INT_MIN, C.INT_MAX in *. lia. }
  rewrite Hclamp. now apply wrap_int_small.
Qed.

(** ** Properties beyond the claims: strings and the codec *)

Lemma contains_append (c : ascii) (s t : string) :
  Str.contains c (s ++ t) = Str.contains c s || Str.contains c t.
Proof.
  induction s as [| a s IH]; cbn; [reflexivity |].
  now rewrite IH, orb_assoc.
Qed.

Lemma before_append (c : ascii) (s t : string) :
  Str.contains c s = false -> Str.before c (s ++ String c t) = s.
Proof.
  induction s as [| a s IH]; cbn.
  - intros _. now rewrite Ascii.eqb_refl.
  - intros H. apply orb_false_iff in H as [Ha Hs]. now rewrite Ha, (IH Hs).
Qed.

Lemma after_append (c : ascii) (s t : string) :
  Str.contains c s = false -> Str.after c (s ++ String c t) = t.
Proof.
  induction s as [| a s IH]; cbn.
  - intros _. now rewrite Ascii.eqb_refl.
  - intros H. apply orb_false_iff in H as [Ha Hs]. now rewrite Ha, (IH Hs).
Qed.

(** The encoder leaves neither the delimiter nor the separator in its
    output. *)
Lemma encode_no_delimiter (s : string) :
  Str.contains "|" (inline_string_encode s) = false /\
  Str.contains ":" (inline_string_encode s) = false.
Proof.
  induction s as [| a s [IHd IHs]]; [split; reflexivity |].
  cbn [inline_string_encode]. destruct (is_special a) eqn:Ha.
  - destruct (is_special_cases a Ha) as [-> | [-> | ->]]; cbn; auto.
  - unfold is_special in Ha.
    apply orb_false_iff in Ha as [Ha _]. apply orb_false_iff in Ha as [Hd Hs].
    cbn. rewrite Hd, Hs. auto.
Qed.

Lemma plain_no_delimiter (s : string) :
  plain s = true -> Str.contains "|" s = false /\ Str.contains ":" s = false.
Proof.
  unfold plain. induction s as [| a s IH]; cbn; [auto |].
  intros H. apply andb_true_iff in H as [Ha Hs]. destruct (IH Hs) as [IHd IHs].
  apply negb_true_iff in Ha. unfold is_special in Ha.
  apply orb_false_iff in Ha as [Ha _]. apply orb_false_iff in Ha as [Hd Hc].
  rewrite Hd, Hc. auto.
Qed.

Lemma split_tokens_not_nil (c : ascii) (s : string) : split_tokens c s <> [].
Proof.
  induction s as [| a s IH]; cbn; [discriminate |].
  destruct (Ascii.eqb a c); [discriminate |].
  destruct (split_tokens c s); [contradiction | discriminate].
Qed.

(** The tokens of two strings put together with the delimiter between them
    are the tokens of the first, then those of the second. *)
Lemma split_tokens_app (c : ascii) (s t : string) :
  split_tokens c (s ++ String c t) = (split_tokens c s ++ split_tokens c t)%list.
Proof.
  induction s as [| a s IH]; cbn.
  - now rewrite Ascii.eqb_refl.
  - destruct (Ascii.eqb a c); [now rewrite IH |].
    rewrite IH. pose proof (split_tokens_not_nil c s) as Hnil.
    destruct (split_tokens c s); [contradiction | reflexivity].
Qed.

(** Strings without the delimiter, none of them empty, joined with the
    delimiter and split again. *)
Lemma Split_concat (c : ascii) (es : list string) :
  Forall (fun e => Str.contains c e = false /\ Str.empty e = false) es ->
  Split (String.concat (String c EmptyString) es) c = es.
Proof.
  intros Hes. destruct es as [| e es]; [reflexivity |].
  assert (Htok : split_tokens c (String.concat (String c EmptyString) (e :: es)) = e :: es).
  { revert e Hes. induction es as [| e' es IH]; intros e Hes.
    - cbn. apply split_tokens_single. inversion Hes as [| ? ? [He _] _]. exact He.
    - inversion Hes as [| ? ? [He _] Hrest]; subst.
      change (String.concat (String c EmptyString) (e :: e' :: es))
        with (e ++ String c (String.concat (String c EmptyString) (e' :: es))).
      rewrite split_tokens_app, (IH e' Hrest), (split_tokens_single _ _ He).
      reflexivity. }
  unfold Split.
  destruct (Str.empty (String.concat (String c EmptyString) (e :: es))) eqn:Hempty;
    [| exact Htok].
  apply empty_true in Hempty. rewrite Hempty in Htok. cbn in Htok.
  inversion Hes as [| ? ? [_ He] _]; subst. injection Htok as <- _. discriminate He.
Qed.

(** ** Properties beyond the claims: serialising and unserialising *)

Section SerialiseProperties.

Context `{P : Platform}.

Lemma SerialiseValue_no_delimiter (control : Control) :
  prints_plain control = true -> Str.contains "|" (SerialiseValue control) = false.
Proof.
  intros Hplain. destruct control; cbn; try apply encode_no_delimiter; try reflexivity.
  - apply plain_no_delimiter, to_string_plain.
  - now apply plain_no_delimiter.
  - destruct value; reflexivity.
Qed.

Lemma emitted_entry_token (control : Control) :
  prints_plain control = true ->
  Str.contains "|" (emitted_entry control) = false /\
  Str.empty (emitted_entry control) = false.
Proof.
  intros Hplain. split; [| apply emitted_entry_not_empty].
  unfold emitted_entry. rewrite !contains_append.
  rewrite (proj1 (encode_no_delimiter _)), (SerialiseValue_no_delimiter _ Hplain).
  reflexivity.
Qed.

(** A token [Serialise] has emitted is taken apart again into the name and
    the serialised value of its control. *)
Lemma unserialise_emitted_entry (cs : list Control) (control : Control) :
  unserialise_token cs (emitted_entry control)
  = hand_value (control_name control) (SerialiseValue control) cs.
Proof.
  unfold unserialise_token, emitted_entry.
  change (inline_string_encode (control_name control) ++ ":" ++ SerialiseValue control)
    with (inline_string_encode (control_name control)
          ++ String ":" (SerialiseValue control)).
  rewrite contains_append. cbn [Str.contains]. rewrite Ascii.eqb_refl, orb_true_r.
  cbn [negb].
  rewrite before_append, after_append by apply encode_no_delimiter.
  now rewrite decode_encode_string.
Qed.

Lemma Serialise_join (d : LuaDialog) :
  Serialise d
  = String.concat "|" (map emitted_entry (filter CanSerialiseValue (controls d))).
Proof.
  unfold Serialise. rewrite fold_serialise_control.
  destruct (map emitted_entry (filter CanSerialiseValue (controls d))); reflexivity.
Qed.

Lemma Split_Serialise_tokens (d : LuaDialog) :
  forallb prints_plain (controls d) = true ->
  Split (Serialise d) "|" = map emitted_entry (filter CanSerialiseValue (controls d)).
Proof.
  intros Hplain. rewrite Serialise_join. apply Split_concat.
  apply Forall_forall. intros e He. apply in_map_iff in He as [c [<- Hc]].
  apply filter_In in Hc as [Hc _]. apply emitted_entry_token.
  rewrite forallb_forall in Hplain. now apply Hplain.
Qed.

(** X1. Splitting what [Serialise] returns on the delimiter gives back one
    token for each control that serialises, in order; each token has the
    separator, the encoded name of its control before the first one and the
    serialised value after it.  Names and text values may hold the delimiter
    and the separator; the float edits must print without them. *)
Theorem Split_Serialise (d : LuaDialog) :
  forallb prints_plain (controls d) = true ->
  Split (Serialise d) "|" = map emitted_entry (filter CanSerialiseValue (controls d)) /\
  (forall control : Control,
      Str.contains ":" (emitted_entry control) = true /\
      Str.before ":" (emitted_entry control) = inline_string_encode (control_name control) /\
      Str.after ":" (emitted_entry control) = SerialiseValue control).
Proof.
  intros Hplain. split.
  - now apply Split_Serialise_tokens.
  - intros control. unfold emitted_entry.
    change (inline_string_encode (control_name control) ++ ":" ++ SerialiseValue control)
      with (inline_string_encode (control_name control)
            ++ String ":" (SerialiseValue control)).
    rewrite contains_append. cbn [Str.contains]. rewrite Ascii.eqb_refl, orb_true_r.
    rewrite before_append, after_append by apply encode_no_delimiter. auto.
Qed.

(** X2. A control whose value this file prints and reads itself (an edit,
    a text box, a dropdown, a checkbox, or an integer edit holding an [int])
    takes back the value it has serialised: [UnserialiseValue] of
    [SerialiseValue] is the control. *)
Theorem UnserialiseValue_SerialiseValue (control : Control) :
  self_contained control -> value_round_trips control.
Proof.
  unfold value_round_trips.
  destruct control as [b l | b t | b c a | b t | b t v lo hi
                      | b t v lo hi st | b it v | b l v]; cbn; intros Hself;
    try contradiction; try (now rewrite decode_encode_string); try reflexivity.
  - now rewrite (atoi_to_string v Hself).
  - destruct v; reflexivity.
Qed.

Lemma UnserialiseValue_without_value (control : Control) (serialised : string) :
  without_value (UnserialiseValue control serialised) = without_value control.
Proof. destruct control; reflexivity. Qed.

Lemma hand_value_without_value (n value : string) (cs : list Control) :
  map without_value (hand_value n value cs) = map without_value cs.
Proof.
  unfold hand_value. rewrite map_map. apply map_ext. intros c.
  destruct (String.eqb (control_name c) n && CanSerialiseValue c);
    [apply UnserialiseValue_without_value | reflexivity].
Qed.

Lemma unserialise_token_without_value (cs : list Control) (tok : string) :
  map without_value (unserialise_token cs tok) = map without_value cs.
Proof.
  unfold unserialise_token.
  destruct (negb (Str.contains ":" tok)); [reflexivity | apply hand_value_without_value].
Qed.

Lemma fold_unserialise_without_value (toks : list string) (cs : list Control) :
  map without_value (fold_left unserialise_token toks cs) = map without_value cs.
Proof.
  revert cs. induction toks as [| tok toks IH]; intros cs; cbn; [reflexivity |].
  now rewrite IH, unserialise_token_without_value.
Qed.

Lemma without_value_not_serialisable (c c' : Control) :
  without_value c' = without_value c -> CanSerialiseValue c = false -> c' = c.
Proof. destruct c; try discriminate. destruct c'; try discriminate. auto. Qed.

(** X3. Whatever the string, [Unserialise] changes nothing but the value
    member of controls that serialise: the number and the order of the
    controls, their classes, names, layout, labels, ranges, steps, items and
    alpha flags, every label control, the buttons, [use_buttons] and
    [button_pushed] are as before. *)
Theorem Unserialise_frame (d : LuaDialog) (serialised : string) :
  map without_value (controls (Unserialise d serialised))
  = map without_value (controls d) /\
  (forall i control,
      nth_error (controls d) i = Some control ->
      CanSerialiseValue control = false ->
      nth_error (controls (Unserialise d serialised)) i = Some control) /\
  buttons (Unserialise d serialised) = buttons d /\
  use_buttons (Unserialise d serialised) = use_buttons d /\
  button_pushed (Unserialise d serialised) = button_pushed d.
Proof.
  assert (Hframe : map without_value (controls (Unserialise d serialised))
                   = map without_value (controls d))
    by apply fold_unserialise_without_value.
  split; [exact Hframe |]. split; [| auto].
  intros i control Hnth Hcan.
  assert (Hi : nth_error (map without_value (controls (Unserialise d serialised))) i
               = Some (without_value control))
    by (rewrite Hframe, nth_error_map, Hnth; reflexivity).
  rewrite nth_error_map in Hi.
  destruct (nth_error (controls (Unserialise d serialised)) i) as [c' |]; [| discriminate].
  injection Hi as Hi. now rewrite (without_value_not_serialisable _ _ Hi Hcan).
Qed.

Lemma fold_unserialise_split_tokens (s : string) (cs : list Control) :
  fold_left unserialise_token (split_tokens "|" s) cs
  = fold_left unserialise_token (Split s "|") cs.
Proof. unfold Split. destruct s; reflexivity. Qed.

(** X4. Unserialising two strings put together with the delimiter is
    unserialising the first, then the second: on a name both give, the later
    value stands. *)
Theorem Unserialise_append (d : LuaDialog) (first second : string) :
  Unserialise d (first ++ "|" ++ second) = Unserialise (Unserialise d first) second.
Proof.
  unfold Unserialise. cbn [controls buttons use_buttons button_pushed]. f_equal.
  rewrite <- (fold_unserialise_split_tokens (first ++ "|" ++ second)).
  change (first ++ "|" ++ second) with (first ++ String "|" second).
  rewrite split_tokens_app, fold_left_app.
  now rewrite !fold_unserialise_split_tokens.
Qed.

Lemma without_value_name (c c' : Control) :
  without_value c' = without_value c -> control_name c' = control_name c.
Proof.
  intros H. assert (Hn : control_name (without_value c') = control_name (without_value c))
    by now rewrite H.
  destruct c, c'; exact Hn.
Qed.

Lemma without_value_CanSerialiseValue (c c' : Control) :
  without_value c' = without_value c -> CanSerialiseValue c' = CanSerialiseValue c.
Proof.
  intros H. assert (Hn : CanSerialiseValue (without_value c')
                         = CanSerialiseValue (without_value c)) by now rewrite H.
  destruct c, c'; exact Hn.
Qed.

Lemma without_value_UnserialiseValue (c c' : Control) (serialised : string) :
  without_value c' = without_value c ->
  UnserialiseValue c' serialised = UnserialiseValue c serialised.
Proof.
  destruct c, c'; cbn; try discriminate; intros [= -> ]; subst; try reflexivity;
    congruence.
Qed.

Lemma NoDup_map_injective {A B : Type} (f : A -> B) (l : list A) (a b : A) :
  NoDup (map f l) -> In a l -> In b l -> f a = f b -> a = b.
Proof.
  induction l as [| c l IH]; cbn; [contradiction |].
  intros Hnodup Ha Hb Hf. inversion Hnodup as [| ? ? Hnotin Hrest]; subst.
  destruct Ha as [-> | Ha], Hb as [-> | Hb]; auto.
  - exfalso. apply Hnotin. rewrite Hf. now apply in_map.
  - exfalso. apply Hnotin. rewrite <- Hf. now apply in_map.
Qed.

Lemma names_injective (cs : list Control) (a b : Control) :
  NoDup (serialisable_names cs) ->
  In a cs -> CanSerialiseValue a = true ->
  In b cs -> CanSerialiseValue b = true ->
  control_name a = control_name b -> a = b.
Proof.
  unfold serialisable_names. intros Hnodup Ha Hca Hb Hcb Hname.
  apply (NoDup_map_injective control_name _ a b Hnodup);
    try (apply filter_In; split; assumption). exact Hname.
Qed.

Lemma nth_error_without_value (cs cur : list Control) (i : nat) (c : Control) :
  map without_value cur = map without_value cs ->
  nth_error cs i = Some c ->
  exists c', nth_error cur i = Some c' /\ without_value c' = without_value c.
Proof.
  intros Hframe Hnth.
  assert (Hi : nth_error (map without_value cur) i = Some (without_value c))
    by (rewrite Hframe, nth_error_map, Hnth; reflexivity).
  rewrite nth_error_map in Hi.
  destruct (nth_error cur i) as [c' |]; [| discriminate].
  injection Hi as Hi. now exists c'.
Qed.

Lemma nth_error_hand_value (n value : string) (cs : list Control) (i : nat) (c : Control) :
  nth_error cs i = Some c ->
  nth_error (hand_value n value cs) i
  = Some (if String.eqb (control_name c) n && CanSerialiseValue c
          then UnserialiseValue c value else c).
Proof. intros Hnth. unfold hand_value. now rewrite nth_error_map, Hnth. Qed.

(** The tokens of the controls [saved], handed in turn to controls that are
    those of [cs] up to their values, put the control of [cs] back at every
    place whose control is among [saved], and leave it where it already
    is. *)
Lemma restore_fold (cs : list Control) :
  NoDup (serialisable_names cs) ->
  (forall c, In c cs -> CanSerialiseValue c = true -> value_round_trips c) ->
  forall saved : list Control,
    (forall l, In l saved -> In l cs /\ CanSerialiseValue l = true) ->
    forall cur : list Control,
      map without_value cur = map without_value cs ->
      forall i c,
        nth_error cs i = Some c ->
        nth_error cur i = Some c \/ In c saved ->
        nth_error (fold_left unserialise_token (map emitted_entry saved) cur) i = Some c.
Proof.
  intros Hnodup Hround saved.
  induction saved as [| l saved IH]; intros Hsaved cur Hframe i c Hnth Hc.
  - destruct Hc as [Hc | []]. exact Hc.
  - cbn [map fold_left]. rewrite unserialise_emitted_entry.
    destruct (Hsaved l (or_introl eq_refl)) as [Hl Hcanl].
    apply IH; [intros l' Hl'; apply Hsaved; now right | | exact Hnth |].
    + now rewrite hand_value_without_value.
    + destruct (nth_error_without_value cs cur i c Hframe Hnth) as [c' [Hcur Hwv]].
      destruct Hc as [Hc | [-> | Hc]]; [left | left | now right].
      * rewrite (nth_error_hand_value _ _ _ _ _ Hc).
        destruct (String.eqb (control_name c) (control_name l) && CanSerialiseValue c)
          eqn:Hhit; [| reflexivity].
        apply andb_true_iff in Hhit as [Hname Hcan]. apply String.eqb_eq in Hname.
        assert (Heq : c = l)
          by (apply (names_injective cs); auto; eapply nth_error_In; eassumption).
        subst l. f_equal. apply Hround; [eapply nth_error_In; eassumption | exact Hcan].
      * rewrite (nth_error_hand_value _ _ _ _ _ Hcur).
        rewrite (without_value_name _ _ Hwv), (without_value_CanSerialiseValue _ _ Hwv).
        rewrite String.eqb_refl, Hcanl. cbn [andb]. f_equal.
        rewrite (without_value_UnserialiseValue _ _ _ Hwv).
        apply Hround; assumption.
Qed.

(** X5. A dialog whose serialisable controls have names of their own and
    take back the value they serialise, and whose float edits print plainly,
    is restored by the string it has serialised to.  Handed to any dialog
    with the same controls up to their values, the string gives that dialog
    the controls of the first; and whatever [Unserialise] has done to the
    dialog in between, unserialising the string gives the dialog back. *)
Theorem Unserialise_Serialise_restores (d : LuaDialog) :
  NoDup (serialisable_names (controls d)) ->
  (forall control,
      In control (controls d) -> CanSerialiseValue control = true ->
      value_round_trips control) ->
  forallb prints_plain (controls d) = true ->
  (forall other,
      map without_value (controls other) = map without_value (controls d) ->
      controls (Unserialise other (Serialise d)) = controls d) /\
  (forall between, Unserialise (Unserialise d between) (Serialise d) = d).
Proof.
  intros Hnodup Hround Hplain.
  assert (Hcontrols : forall other,
             map without_value (controls other) = map without_value (controls d) ->
             controls (Unserialise other (Serialise d)) = controls d).
  { intros other Hframe. unfold Unserialise. cbn [controls].
    rewrite (Split_Serialise_tokens d Hplain).
    set (cur := controls other) in *.
    apply nth_error_ext. intros i.
    destruct (nth_error (controls d) i) as [c |] eqn:Hnth.
    - apply (restore_fold (controls d) Hnodup Hround); auto.
      + intros l Hl. now apply filter_In in Hl.
      + destruct (CanSerialiseValue c) eqn:Hcan.
        * right. apply filter_In. split; [eapply nth_error_In; eassumption | exact Hcan].
        * left. destruct (nth_error_without_value _ cur i c Hframe Hnth) as [c' [Hcur Hwv]].
          now rewrite Hcur, (without_value_not_serialisable _ _ Hwv Hcan).
    - apply nth_error_None. apply nth_error_None in Hnth.
      assert (Hlen : List.length
                       (fold_left unserialise_token
                          (map emitted_entry (filter CanSerialiseValue (controls d))) cur)
                     = List.length (controls d)).
      { rewrite <- (length_map without_value), fold_unserialise_without_value, Hframe.
        apply length_map. }
      lia. }
  split; [exact Hcontrols |].
  intros between.
  assert (Hback : controls (Unserialise (Unserialise d between) (Serialise d)) = controls d)
    by (apply Hcontrols; apply fold_unserialise_without_value).
  destruct d as [cs bs ub bp]. unfold Unserialise in *. cbn in *. now rewrite Hback.
Qed.

(** X6. A control that serialises nothing appears nowhere in what
    [Serialise] returns: the string is that of the dialog without its labels,
    and it is empty exactly when no control serialises. *)
Theorem Serialise_skips_labels (d : LuaDialog) :
  Serialise d
  = Serialise {| controls := filter CanSerialiseValue (controls d);
                 buttons := buttons d;
                 use_buttons := use_buttons d;
                 button_pushed := button_pushed d |} /\
  (Serialise d = EmptyString <-> filter CanSerialiseValue (controls d) = []).
Proof.
  split.
  - rewrite !Serialise_join. cbn [controls]. f_equal. f_equal.
    induction (controls d) as [| c cs IH]; [reflexivity |].
    cbn [filter]. destruct (CanSerialiseValue c) eqn:Hcan; [| exact IH].
    cbn [filter]. rewrite Hcan. now f_equal.
  - rewrite Serialise_join.
    destruct (filter CanSerialiseValue (controls d)) as [| c cs]; [split; reflexivity |].
    split; [| discriminate]. intros Hempty. exfalso.
    pose proof (emitted_entry_not_empty c) as Hc.
    cbn [map String.concat] in Hempty.
    destruct (map emitted_entry cs).
    + rewrite Hempty in Hc. discriminate Hc.
    + assert (He : Str.empty (emitted_entry c ++ "|" ++ String.concat "|" (s :: l)) = true)
        by now rewrite Hempty.
      rewrite empty_append, Hc in He. discriminate He.
Qed.

End SerialiseProperties.

(** ** Properties beyond the claims: reading descriptors and constructing *)

Section ConstructionProperties.

Context `{P : Platform}.

Lemma lua_getfield_absent (k : string) (t : list (LuaValue * LuaValue)) :
  key_absent k t = true -> lua_getfield t k = LNil.
Proof.
  unfold key_absent. induction t as [| [key v] t IH]; cbn; [reflexivity |].
  intros H. apply andb_true_iff in H as [Hk Ht]. apply negb_true_iff in Hk.
  unfold has_key in Hk. cbn in Hk.
  destruct key; try (now apply IH). rewrite Hk. now apply IH.
Qed.

(** X7. A field that is missing from the control table, or holds a value
    of another type, leaves the default as it is: nothing is raised.  A
    missing key, a table or a boolean under a string or number field, a
    string that is no number under a number field, and anything but a
    boolean under a boolean field all give the default; a number under a
    string field is no mistake, it is read as the string Lua makes of it. *)
Theorem get_field_defaults (t : list (LuaValue * LuaValue)) (name : string)
  (ds : string) (di : Z) (dd : lua_Number) (db : bool) :
  (key_absent name t = true ->
   get_field_string t name ds = ds /\ get_field_int t name di = di /\
   get_field_double t name dd = dd /\ get_field_bool t name db = db) /\
  (forall entries, lua_getfield t name = LTable entries ->
   get_field_string t name ds = ds /\ get_field_int t name di = di /\
   get_field_double t name dd = dd /\ get_field_bool t name db = db) /\
  (forall b, lua_getfield t name = LBoolean b ->
   get_field_string t name ds = ds /\ get_field_int t name di = di /\
   get_field_double t name dd = dd /\ get_field_bool t name db = b) /\
  (forall s, lua_getfield t name = LString s ->
   get_field_bool t name db = db /\
   (lua_str2number s = None ->
    get_field_int t name di = di /\ get_field_double t name dd = dd)) /\
  (forall n, lua_getfield t name = LNumber n ->
   get_field_string t name ds = Str.c_str (lua_number2str n) /\
   get_field_int t name di = C.wrap_int (lua_number2integer n) /\
   get_field_double t name dd = n /\ get_field_bool t name db = db).
Proof.
  unfold get_field_string, get_field_int, get_field_double, get_field_bool,
    get_if_right_type_string, get_if_right_type_int, get_if_right_type_double,
    get_if_right_type_bool.
  split; [| split; [| split; [| split]]].
  - intros Habsent. rewrite (lua_getfield_absent _ _ Habsent). cbn. auto.
  - intros entries ->. cbn. auto.
  - intros b ->. cbn. destruct b; auto.
  - intros s ->. cbn. split; [reflexivity |]. intros ->. auto.
  - intros n ->. cbn. auto.
Qed.

Lemma make_control_dispatch (t : list (LuaValue * LuaValue)) (cls : string) :
  Str.to_lower (get_field t "class") = cls ->
  make_control t =
  (if String.eqb cls "label" then Ok (Label_ctor t)
   else if String.eqb cls "edit" then Ok (Edit_ctor t)
   else if String.eqb cls "intedit" then Ok (IntEdit_ctor t)
   else if String.eqb cls "floatedit" then Ok (FloatEdit_ctor t)
   else if String.eqb cls "textbox" then Ok (Textbox_ctor t)
   else if String.eqb cls "dropdown" then Dropdown_ctor t
   else if String.eqb cls "checkbox" then Ok (Checkbox_ctor t)
   else if String.eqb cls "color" then Ok (Color_ctor t false)
   else if String.eqb cls "coloralpha" then Ok (Color_ctor t true)
   else if String.eqb cls "alpha" then Ok (Edit_ctor t)
   else Raise "bad control table entry").
Proof. intros <-. reflexivity. Qed.

Lemma IntEdit_ctor_base (t : list (LuaValue * LuaValue)) :
  control_base (IntEdit_ctor t) = LuaDialogControl_ctor t.
Proof.
  unfold IntEdit_ctor.
  destruct (get_field_int t "min" C.INT_MIN >=? get_field_int t "max" C.INT_MAX);
    reflexivity.
Qed.

Lemma FloatEdit_ctor_base (t : list (LuaValue * LuaValue)) :
  control_base (FloatEdit_ctor t) = LuaDialogControl_ctor t.
Proof.
  unfold FloatEdit_ctor.
  destruct (double_ge (get_field_double t "min" neg_DBL_MAX)
                      (get_field_double t "max" DBL_MAX)); reflexivity.
Qed.

Lemma Dropdown_ctor_cases (t : list (LuaValue * LuaValue)) :
  (exists entries,
      lua_getfield t "items" = LTable entries /\
      Dropdown_ctor t
      = Ok (Dropdown (LuaDialogControl_ctor t) (string_entries entries)
                     (Dropdown_value (string_entries entries) (get_field t "value")))) \/
  (lua_istable (lua_getfield t "items") = false /\ Dropdown_ctor t = Undefined).
Proof.
  unfold Dropdown_ctor, read_string_array.
  destruct (lua_getfield t "items") as [| | | | entries |]; cbn; auto.
  left. now exists entries.
Qed.

(** X8. The class of a control table decides its construction: a class
    that, in lower case, is none of the ten known names (a missing class
    among them) raises "bad control table entry"; a known class other than
    [dropdown] is constructed, with the base members read from the table;
    [alpha] is constructed as an edit; a [dropdown] is constructed when its
    [items] field is a table. *)
Theorem make_control_classes (t : list (LuaValue * LuaValue)) :
  (~ In (Str.to_lower (get_field t "class")) control_classes ->
   make_control t = Raise "bad control table entry") /\
  (key_absent "class" t = true -> make_control t = Raise "bad control table entry") /\
  (In (Str.to_lower (get_field t "class")) control_classes ->
   Str.to_lower (get_field t "class") <> "dropdown" ->
   exists control,
     make_control t = Ok control /\ control_base control = LuaDialogControl_ctor t) /\
  (Str.to_lower (get_field t "class") = "alpha" -> make_control t = Ok (Edit_ctor t)) /\
  (Str.to_lower (get_field t "class") = "dropdown" ->
   lua_istable (lua_getfield t "items") = true ->
   exists control,
     make_control t = Ok control /\ control_base control = LuaDialogControl_ctor t).
Proof.
  split; [| split; [| split; [| split]]].
  - intros Hnot. rewrite (make_control_dispatch t _ eq_refl).
    repeat match goal with
           | |- (if String.eqb ?a ?b then _ else _) = _ =>
               destruct (String.eqb a b) eqn:Heq;
               [ exfalso; apply Hnot; apply String.eqb_eq in Heq; rewrite Heq; cbn; tauto
               | clear Heq ]
           end.
    reflexivity.
  - intros Habsent. unfold make_control, get_field, get_field_string.
    rewrite (lua_getfield_absent _ _ Habsent). reflexivity.
  - intros Hin Hdrop. remember (Str.to_lower (get_field t "class")) as cls eqn:Hcls.
    symmetry in Hcls. rewrite (make_control_dispatch t cls Hcls).
    cbn in Hin.
    destruct Hin as [<- | [<- | [<- | [<- | [<- | [<- | [<- | [<- | [<- | [<- | []]]]]]]]]]];
      cbn; try (eexists; split; [reflexivity | reflexivity]).
    + eexists. split; [reflexivity | apply IntEdit_ctor_base].
    + eexists. split; [reflexivity | apply FloatEdit_ctor_base].
    + contradiction.
  - intros Hcls. now rewrite (make_control_dispatch t _ Hcls).
  - intros Hcls Htable. rewrite (make_control_dispatch t _ Hcls). cbn.
    destruct (Dropdown_ctor_cases t) as [[entries [Hitems Hok]] | [Hitems Hundef]].
    + eexists. split; [exact Hok | reflexivity].
    + rewrite Hitems in Htable. discriminate Htable.
Qed.

(** X9. The class name is matched without regard to case, and the class
    field itself is read by no constructor: two control tables whose classes
    agree in lower case and whose other fields agree are constructed
    alike. *)
Theorem make_control_case_insensitive (t t' : list (LuaValue * LuaValue)) :
  Str.to_lower (get_field t "class") = Str.to_lower (get_field t' "class") ->
  (forall name, name <> "class" -> lua_getfield t name = lua_getfield t' name) ->
  make_control t = make_control t'.
Proof.
  intros Hcls Hfields.
  rewrite (make_control_dispatch t _ Hcls), (make_control_dispatch t' _ eq_refl).
  unfold Label_ctor, Edit_ctor, IntEdit_ctor, FloatEdit_ctor, Textbox_ctor, Dropdown_ctor,
    Checkbox_ctor, Color_ctor, LuaDialogControl_ctor, Edit_text, get_field,
    get_field_string, get_field_int, get_field_double, get_field_bool.
  rewrite !(Hfields "name"), !(Hfields "hint"), !(Hfields "x"), !(Hfields "y"),
    !(Hfields "width"), !(Hfields "height"), ?(Hfields "label"), ?(Hfields "value"),
    ?(Hfields "text"), ?(Hfields "min"), ?(Hfields "max"), ?(Hfields "step"),
    ?(Hfields "items") by discriminate.
  reflexivity.
Qed.

Lemma for_each_app {A B : Type} (body : A -> outcome B) (pre post : list A) :
  for_each body (pre ++ post)%list
  = (bs <- for_each body pre ;; cs <- for_each body post ;; Ok (bs ++ cs)%list).
Proof.
  induction pre as [| a pre IH]; cbn.
  - destruct (for_each body post); reflexivity.
  - destruct (body a); cbn; try reflexivity. rewrite IH.
    destruct (for_each body pre); cbn; try reflexivity.
    destruct (for_each body post); reflexivity.
Qed.

Lemma for_each_length {A B : Type} (body : A -> outcome B) (l : list A) (bs : list B) :
  for_each body l = Ok bs -> List.length bs = List.length l.
Proof.
  revert bs. induction l as [| a l IH]; cbn; intros bs.
  - now intros [= <-].
  - destruct (body a); cbn; try discriminate.
    destruct (for_each body l) as [bs' | |]; cbn; try discriminate.
    intros [= <-]. cbn. now rewrite (IH bs').
Qed.

(** What the constructor returns, in terms of its three loops. *)
Lemma LuaDialog_ctor_Ok (arg1 arg2 arg3 : LuaValue) (include_buttons : bool)
  (d : LuaDialog) :
  LuaDialog_ctor arg1 arg2 arg3 include_buttons = Ok d ->
  exists entries labelled resolved,
    arg1 = LTable entries /\
    for_each control_entry entries = Ok (controls d) /\
    (if include_buttons && lua_istable arg2
     then labels <- lua_for_each arg2;; for_each button_entry labels
     else Ok []) = Ok labelled /\
    (if include_buttons && lua_istable arg3
     then pairs <- lua_for_each arg3;; fold_each button_id_entry pairs labelled
     else Ok labelled) = Ok resolved /\
    buttons d = match resolved with
                | [] => [(BTN_OK, "OK"); (BTN_CANCEL, "Cancel")]
                | _ => resolved
                end /\
    use_buttons d = include_buttons /\
    button_pushed d = -1.
Proof.
  unfold LuaDialog_ctor. intros Hctor.
  destruct arg1 as [| | | | entries |]; try discriminate. cbn in Hctor.
  destruct (for_each control_entry entries) as [cs | |] eqn:Hcs; cbn in Hctor;
    try discriminate.
  destruct (if include_buttons && lua_istable arg2
            then labels <- lua_for_each arg2;; for_each button_entry labels
            else Ok []) as [labelled | |] eqn:Hlab; cbn in Hctor; try discriminate.
  destruct (if include_buttons && lua_istable arg3
            then pairs <- lua_for_each arg3;; fold_each button_id_entry pairs labelled
            else Ok labelled) as [resolved | |] eqn:Hres; cbn in Hctor; try discriminate.
  injection Hctor as <-. exists entries, labelled, resolved. cbn.
  repeat split; auto.
Qed.

(** X10. The shape of the first argument decides whether a dialog is made:
    something that is no table raises "Cannot create config dialog from
    something non-table"; the first entry that is no table, after entries
    that were constructed, raises "bad control table entry" whatever the
    button arguments are; and a dialog that is made has one control for each
    entry, in order, at least one button, no button pushed, and
    [use_buttons] as asked. *)
Theorem LuaDialog_ctor_shape (arg1 arg2 arg3 : LuaValue) (include_buttons : bool) :
  (lua_istable arg1 = false ->
   LuaDialog_ctor arg1 arg2 arg3 include_buttons
   = Raise "Cannot create config dialog from something non-table") /\
  (forall before entry after cs,
      arg1 = LTable (before ++ entry :: after)%list ->
      for_each control_entry before = Ok cs ->
      lua_istable (snd entry) = false ->
      LuaDialog_ctor arg1 arg2 arg3 include_buttons = Raise "bad control table entry") /\
  (forall d,
      LuaDialog_ctor arg1 arg2 arg3 include_buttons = Ok d ->
      exists entries,
        arg1 = LTable entries /\
        for_each control_entry entries = Ok (controls d) /\
        List.length (controls d) = List.length entries /\
        buttons d <> [] /\
        use_buttons d = include_buttons /\
        button_pushed d = -1).
Proof.
  split; [| split].
  - intros Htable. unfold LuaDialog_ctor. now rewrite Htable.
  - intros before entry after cs -> Hbefore Hentry.
    unfold LuaDialog_ctor. cbn. rewrite for_each_app, Hbefore. cbn.
    unfold control_entry at 1. destruct (snd entry); try reflexivity. discriminate.
  - intros d Hctor.
    destruct (LuaDialog_ctor_Ok _ _ _ _ _ Hctor)
      as [entries [labelled [resolved [-> [Hcs [_ [_ [Hbs [Huse Hpushed]]]]]]]]].
    exists entries. repeat split; auto.
    + now apply for_each_length in Hcs.
    + rewrite Hbs. destruct resolved; discriminate.
Qed.

End ConstructionProperties.

(** ** Properties beyond the claims: buttons *)

Section ButtonProperties.

Context `{P : Platform}.

Lemma LuaReadBack_defined (d : LuaDialog) :
  button_pushed_valid d ->
  exists act,
    LuaReadBack d = Ok {| activation := act; values := read_back_controls (controls d) |} /\
    (use_buttons d = false -> act = None) /\
    (use_buttons d = true -> button_pushed d = -1 -> act = Some (LBoolean false)) /\
    (use_buttons d = true ->
     forall btn,
       button_at (buttons d) (button_pushed d) = Ok btn ->
       fst btn <> BTN_CANCEL -> act = Some (lua_pushstring (snd btn))).
Proof.
  intros Hvalid. unfold LuaReadBack, read_back_button.
  destruct (use_buttons d).
  - destruct (button_pushed d =? -1) eqn:Hnone.
    + apply Z.eqb_eq in Hnone. eexists. split; [reflexivity |].
      split; [discriminate |]. split; [reflexivity |].
      intros _ btn Hbtn. rewrite Hnone in Hbtn. discriminate Hbtn.
    + apply Z.eqb_neq in Hnone. destruct Hvalid as [Hv | Hv]; [contradiction |].
      destruct (button_at_valid _ _ Hv) as [btn Hbtn]. rewrite Hbtn. cbn.
      destruct (fst btn =? BTN_CANCEL) eqn:Hid.
      * apply Z.eqb_eq in Hid. eexists. split; [reflexivity |].
        split; [discriminate |]. split; [contradiction |].
        intros _ btn' [= <-]. contradiction.
      * eexists. split; [reflexivity |].
        split; [discriminate |]. split; [contradiction |]. now intros _ btn' [= <-].
  - eexists. split; [reflexivity |]. split; [reflexivity |]. split; discriminate.
Qed.

(** X11. [PushButton] keeps an index that is the sentinel -1 or lies within
    the buttons, and replaces any other by -1; it touches nothing else, and
    only the last push counts.  After it, [LuaReadBack] always returns: it
    never indexes outside the buttons, and a push out of range reads back as
    no button pushed. *)
Theorem PushButton_LuaReadBack (d : LuaDialog) (button : Z) :
  (button = -1 \/ 0 <= button < Z.of_nat (List.length (buttons d)) ->
   button_pushed (PushButton d button) = button) /\
  (~ (button = -1 \/ 0 <= button < Z.of_nat (List.length (buttons d))) ->
   button_pushed (PushButton d button) = -1 /\
   (use_buttons d = true ->
    exists r, LuaReadBack (PushButton d button) = Ok r /\
              activation r = Some (LBoolean false))) /\
  (controls (PushButton d button) = controls d /\
   buttons (PushButton d button) = buttons d /\
   use_buttons (PushButton d button) = use_buttons d) /\
  (forall earlier, PushButton (PushButton d earlier) button = PushButton d button) /\
  (exists r, LuaReadBack (PushButton d button) = Ok r).
Proof.
  assert (Hin : button = -1 \/ 0 <= button < Z.of_nat (List.length (buttons d)) ->
                button_pushed (PushButton d button) = button).
  { intros Hok. unfold PushButton. cbn.
    destruct (button =? -1) eqn:Hnone; [reflexivity |]. apply Z.eqb_neq in Hnone.
    destruct Hok as [Hok | Hok]; [contradiction |].
    destruct (button <? 0) eqn:Hneg; [apply Z.ltb_lt in Hneg; lia |].
    destruct (button >=? Z.of_nat (List.length (buttons d))) eqn:Hbig; [| reflexivity].
    rewrite Z.geb_leb in Hbig. apply Z.leb_le in Hbig. lia. }
  assert (Hout : ~ (button = -1 \/ 0 <= button < Z.of_nat (List.length (buttons d))) ->
                 button_pushed (PushButton d button) = -1).
  { intros Hbad. unfold PushButton. cbn.
    destruct (button =? -1) eqn:Hnone; [apply Z.eqb_eq in Hnone; tauto |].
    destruct (button <? 0) eqn:Hneg; [reflexivity |]. apply Z.ltb_ge in Hneg.
    destruct (button >=? Z.of_nat (List.length (buttons d))) eqn:Hbig; [reflexivity |].
    rewrite Z.geb_leb in Hbig. apply Z.leb_gt in Hbig. exfalso. apply Hbad. lia. }
  destruct (LuaReadBack_defined (PushButton d button) (PushButton_valid d button))
    as [act [Hread [_ [Hnone _]]]].
  split; [exact Hin |]. split; [| split; [| split]].
  - intros Hbad. split; [now apply Hout |]. intros Huse.
    eexists. split; [exact Hread |]. cbn. apply Hnone; [exact Huse | now apply Hout].
  - auto.
  - intros earlier. reflexivity.
  - eexists. exact Hread.
Qed.

(** X12. When buttons are not asked for, the second and the third argument
    are not looked at, whatever they hold: the dialog has the two default
    buttons, and [LuaReadBack] returns the table of values alone, with no
    activation value, whichever button is pushed. *)
Theorem buttons_not_requested (arg1 arg2 arg3 : LuaValue) :
  LuaDialog_ctor arg1 arg2 arg3 false = LuaDialog_ctor arg1 LNil LNil false /\
  (forall d,
      LuaDialog_ctor arg1 arg2 arg3 false = Ok d ->
      buttons d = [(BTN_OK, "OK"); (BTN_CANCEL, "Cancel")] /\
      forall button,
        LuaReadBack (PushButton d button)
        = Ok {| activation := None; values := read_back_controls (controls d) |} /\
        LuaReadBack_count (PushButton d button) = 1).
Proof.
  split; [reflexivity |].
  intros d Hctor.
  destruct (LuaDialog_ctor_Ok _ _ _ _ _ Hctor)
    as [entries [labelled [resolved [_ [_ [Hlab [Hres [Hbs [Huse _]]]]]]]]].
  cbn in Hlab, Hres. injection Hlab as <-. injection Hres as <-.
  split; [exact Hbs |]. intros button.
  unfold LuaReadBack, read_back_button, LuaReadBack_count. cbn. rewrite Huse. auto.
Qed.

Lemma string_to_button_id_cases (str : string) :
  (str = "ok" /\ string_to_button_id str = BTN_OK) \/
  (str = "yes" /\ string_to_button_id str = BTN_YES) \/
  (str = "save" /\ string_to_button_id str = BTN_SAVE) \/
  (str = "apply" /\ string_to_button_id str = BTN_APPLY) \/
  (str = "close" /\ string_to_button_id str = BTN_CLOSE) \/
  (str = "no" /\ string_to_button_id str = BTN_NO) \/
  (str = "cancel" /\ string_to_button_id str = BTN_CANCEL) \/
  (str = "help" /\ string_to_button_id str = BTN_HELP) \/
  (str = "context_help" /\ string_to_button_id str = BTN_CONTEXT_HELP) \/
  (~ In str (map fst ids) /\ string_to_button_id str = -1).
Proof.
  unfold string_to_button_id, ids. cbn [find fst snd map].
  repeat match goal with
         | |- context [String.eqb ?a str] =>
             destruct (String.eqb a str) eqn:Heq;
             [ apply String.eqb_eq in Heq; subst str; cbn; tauto
             | apply String.eqb_neq in Heq; revert Heq ]
         end.
  intros. do 9 right. split; [| reflexivity]. cbn. intuition congruence.
Qed.

(** X13. [string_to_button_id] knows the nine names in lower case and
    nothing else: the id it gives lies between -1 and 8, it is -1 exactly
    for a string that is none of the names, two strings with the same id
    other than -1 are the same name, and only "cancel" gives [BTN_CANCEL]. *)
Theorem string_to_button_id_names (str : string) :
  -1 <= string_to_button_id str <= 8 /\
  (string_to_button_id str = -1 <-> ~ In str (map fst ids)) /\
  (forall other,
      string_to_button_id str = string_to_button_id other ->
      string_to_button_id str <> -1 -> str = other) /\
  (string_to_button_id str = BTN_CANCEL <-> str = "cancel").
Proof.
  split; [| split; [| split]].
  - destruct (string_to_button_id_cases str)
      as [[_ H] | [[_ H] | [[_ H] | [[_ H] | [[_ H] | [[_ H] | [[_ H] | [[_ H] | [[_ H] | [_ H]]]]]]]]]];
      rewrite H; cbv; split; discriminate.
  - destruct (string_to_button_id_cases str)
      as [[-> H] | [[-> H] | [[-> H] | [[-> H] | [[-> H] | [[-> H] | [[-> H] | [[-> H] | [[-> H] | [Hn H]]]]]]]]]];
      try (split; [discriminate | intros Hnot; exfalso; apply Hnot; cbn; tauto]).
    split; auto.
  - intros other Hsame Hknown.
    destruct (string_to_button_id_cases str)
      as [[-> H] | [[-> H] | [[-> H] | [[-> H] | [[-> H] | [[-> H] | [[-> H] | [[-> H] | [[-> H] | [_ H]]]]]]]]]];
      try contradiction;
      rewrite H in Hsame;
      destruct (string_to_button_id_cases other)
        as [[-> H'] | [[-> H'] | [[-> H'] | [[-> H'] | [[-> H'] | [[-> H'] | [[-> H'] | [[-> H'] | [[-> H'] | [_ H']]]]]]]]]];
      try reflexivity; rewrite H' in Hsame; discriminate Hsame.
  - destruct (string_to_button_id_cases str)
      as [[-> H] | [[-> H] | [[-> H] | [[-> H] | [[-> H] | [[-> H] | [[-> H] | [[-> H] | [[-> H] | [Hn H]]]]]]]]]];
      try (split; [discriminate | discriminate]); try (split; reflexivity).
    split; [rewrite H; discriminate |].
    intros ->. exfalso. apply Hn. cbn. tauto.
Qed.

Lemma button_entry_ids (labels : list (LuaValue * LuaValue)) (bs : list (Z * string)) :
  for_each button_entry labels = Ok bs -> Forall (fun b => fst b = -1) bs.
Proof.
  revert bs. induction labels as [| e labels IH]; cbn; intros bs.
  - intros [= <-]. constructor.
  - unfold button_entry at 1. destruct (check_string (snd e)); cbn; try discriminate.
    destruct (for_each button_entry labels) as [bs' | |]; cbn; try discriminate.
    intros [= <-]. constructor; [reflexivity | now apply IH].
Qed.

Lemma assign_first_ids (Q : Z -> Prop) (label : string) (id : Z) (bs bs' : list (Z * string)) :
  Q id -> Forall (fun b => Q (fst b)) bs ->
  assign_first label id bs = Some bs' -> Forall (fun b => Q (fst b)) bs'.
Proof.
  intros Hid. revert bs'. induction bs as [| b bs IH]; cbn; intros bs' Hbs; [discriminate |].
  inversion Hbs as [| ? ? Hb Hrest]; subst.
  destruct (String.eqb (snd b) label).
  - intros [= <-]. now constructor.
  - destruct (assign_first label id bs) as [bs0 |]; cbn; [| discriminate].
    intros [= <-]. constructor; [exact Hb | now apply IH].
Qed.

Lemma string_to_button_id_range (str : string) : -1 <= string_to_button_id str <= 8.
Proof.
  destruct (string_to_button_id_cases str)
    as [[_ H] | [[_ H] | [[_ H] | [[_ H] | [[_ H] | [[_ H] | [[_ H] | [[_ H] | [[_ H] | [_ H]]]]]]]]]];
    rewrite H; cbv; split; discriminate.
Qed.

Lemma fold_button_ids_range (pairs : list (LuaValue * LuaValue)) (bs bs' : list (Z * string)) :
  Forall (fun b => -1 <= fst b <= 8) bs ->
  fold_each button_id_entry pairs bs = Ok bs' ->
  Forall (fun b => -1 <= fst b <= 8) bs'.
Proof.
  revert bs. induction pairs as [| e pairs IH]; cbn; intros bs Hbs.
  - now intros [= <-].
  - destruct (button_id_entry bs e) as [bs0 | |] eqn:Hstep; cbn; try discriminate.
    apply IH. unfold button_id_entry in Hstep.
    destruct (check_string (fst e)) as [k | |]; cbn in Hstep; try discriminate.
    destruct (check_string (snd e)) as [l | |]; cbn in Hstep; try discriminate.
    destruct (assign_first l (string_to_button_id k) bs) as [bs1 |] eqn:Ha;
      [| discriminate].
    destruct (fst e); try discriminate. injection Hstep as <-.
    apply (assign_first_ids (fun z => -1 <= z <= 8) _ _ _ _ (string_to_button_id_range k) Hbs Ha).
Qed.

(** X14. The buttons of a constructed dialog: every id is -1 or one of the
    nine ids, and when labels were given the buttons carry exactly these
    labels, in the order given; the id map changes ids only, it adds no
    button, drops none and moves none. *)
Theorem constructed_buttons (arg1 arg2 arg3 : LuaValue) (include_buttons : bool)
  (d : LuaDialog) :
  LuaDialog_ctor arg1 arg2 arg3 include_buttons = Ok d ->
  Forall (fun b => -1 <= fst b <= 8) (buttons d) /\
  (forall labels bs,
      include_buttons = true ->
      arg2 = LTable labels ->
      for_each button_entry labels = Ok bs ->
      bs <> [] ->
      map snd (buttons d) = map snd bs /\ List.length (buttons d) = List.length labels).
Proof.
  intros Hctor.
  destruct (LuaDialog_ctor_Ok _ _ _ _ _ Hctor)
    as [entries [labelled [resolved [_ [_ [Hlab [Hres [Hbs _]]]]]]]].
  assert (Hlabelled : Forall (fun b => -1 <= fst b <= 8) labelled).
  { destruct (include_buttons && lua_istable arg2).
    - destruct (lua_for_each arg2) as [labels | |]; cbn in Hlab; try discriminate.
      apply button_entry_ids in Hlab. eapply Forall_impl; [| exact Hlab].
      intros b ->. lia.
    - injection Hlab as <-. constructor. }
  assert (Hlabels : map snd resolved = map snd labelled /\
                    Forall (fun b => -1 <= fst b <= 8) resolved).
  { destruct (include_buttons && lua_istable arg3).
    - destruct (lua_for_each arg3) as [pairs | |]; cbn in Hres; try discriminate.
      split; [now apply fold_button_ids_labels in Hres
             | now apply (fold_button_ids_range pairs labelled)].
    - injection Hres as <-. auto. }
  destruct Hlabels as [Hsame Hrange]. split.
  - rewrite Hbs. destruct resolved; [| exact Hrange].
    repeat constructor; cbv; discriminate.
  - intros labels bs -> -> Hfor Hne. cbn in Hlab. rewrite Hfor in Hlab.
    injection Hlab as <-.
    assert (Hres' : resolved <> []).
    { intros ->. destruct bs; [contradiction | discriminate Hsame]. }
    rewrite Hbs. destruct resolved as [| b resolved]; [contradiction |].
    split; [exact Hsame |].
    rewrite <- (length_map snd), Hsame, length_map. now apply for_each_length in Hfor.
Qed.

(** X15. Buttons given by labels alone, with no id map, all have the id
    -1, and pushing any of them reads back its label, never [false]: without
    an id map no button cancels, whatever its label says. *)
Theorem unmapped_buttons (arg1 arg3 : LuaValue) (labels : list (LuaValue * LuaValue))
  (d : LuaDialog) :
  labels <> [] ->
  lua_istable arg3 = false ->
  LuaDialog_ctor arg1 (LTable labels) arg3 true = Ok d ->
  for_each button_entry labels = Ok (buttons d) /\
  Forall (fun b => fst b = -1) (buttons d) /\
  (forall i btn,
      nth_error (buttons d) i = Some btn ->
      LuaReadBack (PushButton d (Z.of_nat i))
      = Ok {| activation := Some (lua_pushstring (snd btn));
              values := read_back_controls (controls d) |}).
Proof.
  intros Hne Htable Hctor.
  destruct (LuaDialog_ctor_Ok _ _ _ _ _ Hctor)
    as [entries [labelled [resolved [_ [_ [Hlab [Hres [Hbs [Huse _]]]]]]]]].
  cbn in Hlab. rewrite Htable in Hres. cbn in Hres. injection Hres as <-.
  assert (Hlen : List.length labelled = List.length labels) by now apply for_each_length in Hlab.
  assert (Hsame : buttons d = labelled).
  { rewrite Hbs. destruct labelled; [| reflexivity].
    destruct labels; [contradiction | discriminate Hlen]. }
  rewrite Hsame. split; [exact Hlab |].
  assert (Hids : Forall (fun b => fst b = -1) labelled) by now apply button_entry_ids in Hlab.
  split; [exact Hids |].
  intros i btn Hnth.
  assert (Hlt : (i < List.length labelled)%nat)
    by (apply nth_error_Some; rewrite Hnth; discriminate).
  assert (Hid : fst btn = -1).
  { rewrite Forall_forall in Hids. apply Hids. eapply nth_error_In. eassumption. }
  unfold LuaReadBack, read_back_button, PushButton. cbn. rewrite Huse, Hsame.
  destruct (Z.of_nat i =? -1) eqn:Hnone; [apply Z.eqb_eq in Hnone; lia |].
  destruct (Z.of_nat i <? 0) eqn:Hneg; [apply Z.ltb_lt in Hneg; lia |].
  destruct (Z.of_nat i >=? Z.of_nat (List.length labelled)) eqn:Hbig;
    [rewrite Z.geb_leb in Hbig; apply Z.leb_le in Hbig; lia |].
  cbn. rewrite Hnone. unfold button_at. rewrite Hneg, Nat2Z.id, Hnth. cbn.
  rewrite Hid. reflexivity.
Qed.

End ButtonProperties.

(** ** Properties beyond the claims: values *)

Section ValueProperties.

Context `{P : Platform}.



Lemma for_each_Forall {A B : Type} (body : A -> outcome B) (Q : B -> Prop)
  (l : list A) (bs : list B) :
  (forall a b, body a = Ok b -> Q b) -> for_each body l = Ok bs -> Forall Q bs.
Proof.
  intros Hbody. revert bs. induction l as [| a l IH]; cbn; intros bs.
  - intros [= <-]. constructor.
  - destruct (body a) as [b | |] eqn:Hb; cbn; try discriminate.
    destruct (for_each body l) as [bs' | |]; cbn; try discriminate.
    intros [= <-]. constructor; [now apply (Hbody a) | now apply IH].
Qed.




Lemma Dropdown_value_among (items : list string) (value : string) :
  items = [] \/ In (Dropdown_value items value) items.
Proof.
  destruct items as [| first rest]; [now left |]. right. unfold Dropdown_value.
  destruct (member value (first :: rest)) eqn:Hmem; cbn [negb].
  - unfold member in Hmem. apply existsb_exists in Hmem as [v [Hin Heq]].
    apply String.eqb_eq in Heq. now subst v.
  - now left.
Qed.

Lemma make_control_value_among (t : list (LuaValue * LuaValue)) (control : Control) :
  make_control t = Ok control -> value_among_items control.
Proof.
  rewrite (make_control_dispatch t _ eq_refl).
  repeat match goal with
         | |- (if ?b then _ else _) = _ -> _ => destruct b
         end; try discriminate; try (intros [= <-]; exact I).
  - intros [= <-]. unfold IntEdit_ctor. destruct (_ >=? _); exact I.
  - intros [= <-]. unfold FloatEdit_ctor. destruct (double_ge _ _); exact I.
  - destruct (Dropdown_ctor_cases t) as [[entries [_ Hok]] | [_ Hundef]];
      [rewrite Hok | rewrite Hundef; discriminate].
    intros [= <-]. apply Dropdown_value_among.
Qed.

(** X17. In a constructed dialog, the value of every dropdown that has
    items is one of its items, whatever value the control table gave. *)
Theorem constructed_dropdown_value (arg1 arg2 arg3 : LuaValue) (include_buttons : bool)
  (d : LuaDialog) :
  LuaDialog_ctor arg1 arg2 arg3 include_buttons = Ok d ->
  Forall value_among_items (controls d).
Proof.
  intros Hctor.
  destruct (LuaDialog_ctor_Ok _ _ _ _ _ Hctor) as [entries [_ [_ [_ [Hcs _]]]]].
  apply (for_each_Forall control_entry value_among_items entries _); [| exact Hcs].
  intros e c. unfold control_entry. destruct (snd e); try discriminate.
  apply make_control_value_among.
Qed.

Lemma lua_getfield_app (a b : list (LuaValue * LuaValue)) (k : string) :
  lua_getfield (a ++ b) k = if key_absent k a then lua_getfield b k else lua_getfield a k.
Proof.
  unfold key_absent. induction a as [| [key v] a IH]; cbn; [reflexivity |].
  unfold has_key at 1. cbn [fst].
  destruct key; cbn [negb andb]; try exact IH.
  destruct (String.eqb s k); cbn [negb andb]; [reflexivity | exact IH].
Qed.

Lemma key_absent_filter (k : string) (t : list (LuaValue * LuaValue)) :
  key_absent k (filter (fun e => negb (has_key k e)) t) = true.
Proof.
  unfold key_absent. apply forallb_forall. intros e He.
  now apply filter_In in He.
Qed.

Lemma has_key_other (k k' : string) (e : LuaValue * LuaValue) :
  k <> k' -> has_key k' e = true -> has_key k e = false.
Proof.
  unfold has_key. destruct (fst e); try discriminate.
  intros Hne Hk'. apply String.eqb_eq in Hk'. subst s.
  apply String.eqb_neq. congruence.
Qed.

Lemma lua_getfield_filter_other (k k' : string) (t : list (LuaValue * LuaValue)) :
  k <> k' ->
  lua_getfield (filter (fun e => negb (has_key k e)) t) k' = lua_getfield t k'.
Proof.
  intros Hne. induction t as [| [key v] t IH]; [reflexivity |].
  cbn [filter]. unfold has_key at 1. cbn [fst].
  destruct key; cbn [negb lua_getfield]; try exact IH.
  destruct (String.eqb s k) eqn:Hs; cbn [negb lua_getfield].
  - apply String.eqb_eq in Hs. subst s.
    assert (Hk : String.eqb k k' = false) by now apply String.eqb_neq.
    now rewrite Hk.
  - destruct (String.eqb s k'); [reflexivity | exact IH].
Qed.

(** Reading a field after [lua_setfield]: the value just stored under that
    key, and what was there under any other key. *)
Lemma lua_getfield_setfield (t : list (LuaValue * LuaValue)) (k k' : string) (v : LuaValue) :
  lua_getfield (lua_setfield t k v) k' = if String.eqb k k' then v else lua_getfield t k'.
Proof.
  set (others := filter (fun e => negb (has_key k e)) t).
  assert (Hsame : lua_getfield others k = LNil)
    by apply lua_getfield_absent, key_absent_filter.
  assert (Hstored : lua_getfield (others ++ [(LString k, v)]) k'
                    = if String.eqb k k' then v else lua_getfield t k').
  { rewrite lua_getfield_app. destruct (String.eqb k k') eqn:Hk.
    - apply String.eqb_eq in Hk. subst k'.
      unfold others. rewrite key_absent_filter. cbn. now rewrite String.eqb_refl.
    - apply String.eqb_neq in Hk.
      destruct (key_absent k' others) eqn:Habsent.
      + cbn. apply String.eqb_neq in Hk. rewrite Hk. apply String.eqb_neq in Hk.
        rewrite <- (lua_getfield_filter_other k k' t Hk). fold others.
        symmetry. now apply lua_getfield_absent.
      + unfold others. now apply lua_getfield_filter_other. }
  unfold lua_setfield. fold others.
  destruct v; try exact Hstored.
  destruct (String.eqb k k') eqn:Hk.
  - apply String.eqb_eq in Hk. now subst k'.
  - apply String.eqb_neq in Hk. unfold others. now apply lua_getfield_filter_other.
Qed.

Lemma read_back_controls_snoc (cs : list Control) (control : Control) :
  read_back_controls (cs ++ [control])
  = lua_setfield (read_back_controls cs) (Str.c_str (control_name control))
                 (control_LuaReadBack control).
Proof. unfold read_back_controls. now rewrite fold_left_app. Qed.

Lemma read_back_controls_lookup (cs : list Control) (k : string) :
  lua_getfield (read_back_controls cs) k
  = match last_named k cs with
    | Some control => control_LuaReadBack control
    | None => LNil
    end.
Proof.
  induction cs as [| control cs IH] using rev_ind; [reflexivity |].
  rewrite read_back_controls_snoc, lua_getfield_setfield.
  unfold last_named. rewrite rev_app_distr. cbn [rev app find].
  destruct (String.eqb (Str.c_str (control_name control)) k); [reflexivity | exact IH].
Qed.

(** X18. The table [LuaReadBack] returns holds, under each name, what the
    last control of that name reads back; earlier controls of the same name
    are overwritten.  A label reads back nil, so a name whose last control is
    a label has no entry, like a name no control has. *)
Theorem LuaReadBack_last_wins (d : LuaDialog) (r : ReadBack) (k : string) :
  LuaReadBack d = Ok r ->
  lua_getfield (values r) k
  = match last_named k (controls d) with
    | Some control => control_LuaReadBack control
    | None => LNil
    end.
Proof.
  unfold LuaReadBack. destruct (read_back_button d); cbn; try discriminate.
  intros [= <-]. cbn. apply read_back_controls_lookup.
Qed.

End ValueProperties.

(** ** Properties beyond the claims: the order of tokens *)

Section TokenProperties.

Context `{P : Platform}.

Lemma unserialise_token_map (cs : list Control) (tok : string) :
  unserialise_token cs tok = map (fun c => apply_token c tok) cs.
Proof.
  unfold unserialise_token, hand_value, apply_token.
  destruct (Str.contains ":" tok); cbn [negb andb]; [reflexivity |].
  symmetry. apply map_id.
Qed.

Lemma fold_unserialise_map (toks : list string) (cs : list Control) :
  fold_left unserialise_token toks cs = map (fun c => fold_left apply_token toks c) cs.
Proof.
  revert cs. induction toks as [| tok toks IH]; intros cs; cbn [fold_left].
  - symmetry. apply map_id.
  - rewrite IH, unserialise_token_map, map_map. reflexivity.
Qed.

Lemma apply_token_without_value (c : Control) (tok : string) :
  without_value (apply_token c tok) = without_value c.
Proof.
  unfold apply_token. destruct (_ && _ && _); [| reflexivity].
  apply UnserialiseValue_without_value.
Qed.

Lemma fold_apply_token_without_value (toks : list string) (c : Control) :
  without_value (fold_left apply_token toks c) = without_value c.
Proof.
  revert c. induction toks as [| tok toks IH]; intros c; cbn [fold_left]; [reflexivity |].
  now rewrite IH, apply_token_without_value.
Qed.

(** The tokens either leave every control of a given make alone, or set the
    value of each to that of the last token that names it. *)
Lemma fold_apply_token_last (toks : list string) (c : Control) :
  (forall c', without_value c' = without_value c -> fold_left apply_token toks c' = c') \/
  (exists value,
      forall c', without_value c' = without_value c ->
                 fold_left apply_token toks c' = UnserialiseValue c value).
Proof.
  induction toks as [| tok toks IH] using rev_ind; [now left |].
  assert (Hstep : forall c', without_value c' = without_value c ->
                             fold_left apply_token (toks ++ [tok]) c'
                             = apply_token (fold_left apply_token toks c') tok)
    by (intros c' _; now rewrite fold_left_app).
  destruct (Str.contains ":" tok
            && String.eqb (control_name c) (inline_string_decode (Str.before ":" tok))
            && CanSerialiseValue c) eqn:Hhit.
  - right. exists (Str.after ":" tok). intros c' Hc'. rewrite (Hstep c' Hc').
    assert (Hcur : without_value (fold_left apply_token toks c') = without_value c)
      by now rewrite fold_apply_token_without_value.
    set (cur := fold_left apply_token toks c') in *. unfold apply_token.
    rewrite (without_value_name _ _ Hcur), (without_value_CanSerialiseValue _ _ Hcur), Hhit.
    now apply without_value_UnserialiseValue.
  - assert (Hmiss : forall c', without_value c' = without_value c ->
                               fold_left apply_token (toks ++ [tok]) c'
                               = fold_left apply_token toks c').
    { intros c' Hc'. rewrite (Hstep c' Hc').
      assert (Hcur : without_value (fold_left apply_token toks c') = without_value c)
        by now rewrite fold_apply_token_without_value.
      set (cur := fold_left apply_token toks c') in *. unfold apply_token.
      now rewrite (without_value_name _ _ Hcur), (without_value_CanSerialiseValue _ _ Hcur),
        Hhit. }
    destruct IH as [IH | [value IH]].
    + left. intros c' Hc'. rewrite (Hmiss c' Hc'). now apply IH.
    + right. exists value. intros c' Hc'. rewrite (Hmiss c' Hc'). now apply IH.
Qed.

(** X19. What [Unserialise] leaves depends on the values the dialog had
    only where no token names a control: a string unserialised a second time
    changes nothing more, and unserialised after any other string it gives
    every control it changes the same value as when unserialised alone. *)
Theorem Unserialise_last_token (d : LuaDialog) (serialised : string) :
  Unserialise (Unserialise d serialised) serialised = Unserialise d serialised /\
  (forall earlier i control after,
      nth_error (controls d) i = Some control ->
      nth_error (controls (Unserialise d serialised)) i = Some after ->
      after <> control ->
      nth_error (controls (Unserialise (Unserialise d earlier) serialised)) i = Some after).
Proof.
  split.
  - unfold Unserialise. cbn [controls buttons use_buttons button_pushed]. f_equal.
    rewrite !fold_unserialise_map, map_map. apply map_ext. intros c.
    destruct (fold_apply_token_last (Split serialised "|") c) as [Hkeep | [value Hset]].
    + now rewrite !(Hkeep c eq_refl).
    + rewrite (Hset c eq_refl). apply Hset. apply UnserialiseValue_without_value.
  - intros earlier i control after Hnth Hafter Hchanged.
    unfold Unserialise in *. cbn [controls] in *.
    rewrite fold_unserialise_map, nth_error_map, Hnth in Hafter. injection Hafter as <-.
    rewrite (fold_unserialise_map (Split serialised "|")), nth_error_map.
    rewrite (fold_unserialise_map (Split earlier "|")), nth_error_map, Hnth. cbn.
    f_equal.
    destruct (fold_apply_token_last (Split serialised "|") control)
      as [Hkeep | [value Hset]].
    + exfalso. apply Hchanged. now apply Hkeep.
    + rewrite (Hset control eq_refl). apply Hset. apply fold_apply_token_without_value.
Qed.

(** X20. On a table, [read_string_array] keeps the entries that are strings
    (numbers count, converted), in the order of the table, and passes over
    the others without an error; so it returns no more strings than the table
    has entries. *)
Theorem read_string_array_strings (entries : list (LuaValue * LuaValue)) :
  exists items,
    read_string_array (LTable entries) = Ok items /\
    map Some items = map lua_tostring (filter lua_isstring (map snd entries)) /\
    (List.length items <= List.length entries)%nat.
Proof.
  exists (string_entries entries).
  split; [reflexivity |]. split; [apply string_entries_filter |].
  rewrite <- (length_map Some), string_entries_filter, length_map.
  rewrite <- (length_map snd entries). apply filter_length_le.
Qed.

End TokenProperties.

(** ** Theorems: unserialising any string *)

Section UnserialiseTheorems.

Context `{P : Platform}.

Lemma apply_token_miss (c : Control) (tok : string) :
  Str.contains ":" tok = false \/
  control_name c <> inline_string_decode (Str.before ":" tok) \/
  CanSerialiseValue c = false ->
  apply_token c tok = c.
Proof.
  unfold apply_token. intros [Hsep | [Hname | Hcan]].
  - now rewrite Hsep.
  - apply String.eqb_neq in Hname. now rewrite Hname, andb_false_r.
  - now rewrite Hcan, andb_false_r.
Qed.

Lemma fold_apply_token_miss (toks : list string) (c : Control) :
  (forall tok, In tok toks -> apply_token c tok = c) ->
  fold_left apply_token toks c = c.
Proof.
  induction toks as [| tok toks IH]; cbn [fold_left]; intros Hmiss; [reflexivity |].
  rewrite (Hmiss tok (or_introl eq_refl)). apply IH.
  intros tok' Hin. apply Hmiss. now right.
Qed.

Lemma fold_apply_token_hit (pre post : list string) (tok : string) (c : Control) :
  Str.contains ":" tok = true ->
  control_name c = inline_string_decode (Str.before ":" tok) ->
  CanSerialiseValue c = true ->
  (forall tok', In tok' post ->
                Str.contains ":" tok' = false \/
                control_name c <> inline_string_decode (Str.before ":" tok')) ->
  fold_left apply_token (pre ++ tok :: post)%list c = UnserialiseValue c (Str.after ":" tok).
Proof.
  intros Hsep Hname Hcan Hpost. rewrite fold_left_app. cbn [fold_left].
  assert (Hcur : without_value (fold_left apply_token pre c) = without_value c)
    by apply fold_apply_token_without_value.
  set (cur := fold_left apply_token pre c) in *.
  assert (Hhit : apply_token cur tok = UnserialiseValue c (Str.after ":" tok)).
  { unfold apply_token.
    rewrite (without_value_name _ _ Hcur), (without_value_CanSerialiseValue _ _ Hcur).
    rewrite Hsep, Hcan, Hname, String.eqb_refl. cbn [andb].
    now apply without_value_UnserialiseValue. }
  rewrite Hhit. apply fold_apply_token_miss. intros tok' Hin. apply apply_token_miss.
  rewrite UnserialiseValue_name.
  destruct (Hpost tok' Hin) as [H | H]; [now left | right; now left].
Qed.

(** C9. [Unserialise] takes any string: its body calls nothing that raises,
    it keeps the controls' names and the buttons, and the dialog it leaves is
    read back as before.  The tokens are handled one after another, a string
    put together from two with the delimiter as the first, then the second.
    A token with no separator, or one that decodes to a name that no
    serialisable control has, is passed over, whatever the tokens before it
    did, and the tokens after it are handled still: a control that no token
    names is left as it is, and a control that serialises is given the raw
    value of the last token that names it -- every control of that name
    alike, whatever tokens come before, between and after.  A string of one
    token hands its raw value to every serialisable control with the decoded
    name and leaves the others alone. *)
Theorem Unserialise_tolerant (d : LuaDialog) (serialised : string) :
  (map control_name (controls (Unserialise d serialised)) = map control_name (controls d) /\
   buttons (Unserialise d serialised) = buttons d /\
   button_pushed (Unserialise d serialised) = button_pushed d) /\
  (forall cs tok,
      Str.contains ":" tok = false \/
      (forall c, In c cs ->
                 control_name c = inline_string_decode (Str.before ":" tok) ->
                 CanSerialiseValue c = false) ->
      unserialise_token cs tok = cs) /\
  ((forall tok, In tok (Split serialised "|") ->
                Str.contains ":" tok = false \/
                (forall c, In c (controls d) ->
                           control_name c = inline_string_decode (Str.before ":" tok) ->
                           CanSerialiseValue c = false)) ->
   Unserialise d serialised = d) /\
  (Str.contains "|" serialised = false ->
   Str.contains ":" serialised = true ->
   forall i c,
     nth_error (controls d) i = Some c ->
     nth_error (controls (Unserialise d serialised)) i =
     Some (if String.eqb (control_name c) (inline_string_decode (Str.before ":" serialised))
              && CanSerialiseValue c
           then UnserialiseValue c (Str.after ":" serialised)
           else c)) /\
  (forall first second,
      serialised = first ++ "|" ++ second ->
      Unserialise d serialised = Unserialise (Unserialise d first) second) /\
  (forall i c,
      nth_error (controls d) i = Some c ->
      (forall tok, In tok (Split serialised "|") ->
                   Str.contains ":" tok = false \/
                   control_name c <> inline_string_decode (Str.before ":" tok) \/
                   CanSerialiseValue c = false) ->
      nth_error (controls (Unserialise d serialised)) i = Some c) /\
  (forall pre tok post i c,
      Split serialised "|" = (pre ++ tok :: post)%list ->
      Str.contains ":" tok = true ->
      nth_error (controls d) i = Some c ->
      control_name c = inline_string_decode (Str.before ":" tok) ->
      CanSerialiseValue c = true ->
      (forall tok', In tok' post ->
                    Str.contains ":" tok' = false \/
                    control_name c <> inline_string_decode (Str.before ":" tok')) ->
      nth_error (controls (Unserialise d serialised)) i
      = Some (UnserialiseValue c (Str.after ":" tok))) /\
  (button_pushed_valid d ->
   exists act,
     LuaReadBack (Unserialise d serialised)
     = Ok {| activation := act;
             values := read_back_controls (controls (Unserialise d serialised)) |} /\
     forall r, LuaReadBack d = Ok r -> activation r = act).
Proof.
  split; [| split; [| split; [| split; [| split; [| split; [| split]]]]]].
  - unfold Unserialise. cbn. split; [apply fold_unserialise_names | split; reflexivity].
  - intros cs tok Hskip. now apply unserialise_token_skipped.
  - intros Hskip. unfold Unserialise.
    assert (Hsame : fold_left unserialise_token (Split serialised "|") (controls d)
                    = controls d).
    { revert Hskip. generalize (Split serialised "|") as toks.
      induction toks as [| tok toks IH]; cbn; intros Hskip; [reflexivity |].
      rewrite unserialise_token_skipped by (apply Hskip; now left).
      apply IH. intros tok' Hin. apply Hskip. now right. }
    rewrite Hsame. destruct d; reflexivity.
  - intros Hdelim Hsep i c Hnth. unfold Unserialise, Split. cbn [controls].
    destruct serialised as [| a rest]; [discriminate |].
    cbn [Str.empty]. rewrite (split_tokens_single _ _ Hdelim). cbn [fold_left].
    unfold unserialise_token. rewrite Hsep. cbn [negb]. unfold hand_value.
    now rewrite nth_error_map, Hnth.
  - intros first second ->.
    unfold Unserialise. cbn [controls buttons use_buttons button_pushed]. f_equal.
    rewrite <- (fold_unserialise_split_tokens (first ++ "|" ++ second)).
    change (first ++ "|" ++ second) with (first ++ String "|" second).
    rewrite split_tokens_app, fold_left_app.
    now rewrite !fold_unserialise_split_tokens.
  - intros i c Hnth Hmiss. unfold Unserialise. cbn [controls].
    rewrite fold_unserialise_map, nth_error_map, Hnth. cbn [option_map]. f_equal.
    apply fold_apply_token_miss. intros tok Hin. apply apply_token_miss. now apply Hmiss.
  - intros pre tok post i c Htoks Hsep Hnth Hname Hcan Hpost.
    unfold Unserialise. cbn [controls].
    rewrite fold_unserialise_map, nth_error_map, Hnth, Htoks. cbn [option_map]. f_equal.
    now apply fold_apply_token_hit.
  - intros Hvalid.
    assert (Hafter : button_pushed_valid (Unserialise d serialised)) by exact Hvalid.
    unfold LuaReadBack at 1. unfold read_back_button.
    cbn [use_buttons buttons button_pushed Unserialise].
    unfold LuaReadBack, read_back_button.
    destruct (use_buttons d).
    + destruct (button_pushed d =? -1) eqn:Hnone.
      * eexists. split; [reflexivity |]. now intros r [= <-].
      * apply Z.eqb_neq in Hnone. destruct Hvalid as [Hv | Hv]; [contradiction |].
        destruct (button_at_valid _ _ Hv) as [btn Hbtn]. rewrite Hbtn. cbn [bind].
        destruct (fst btn =? BTN_CANCEL);
          (eexists; split; [reflexivity |]; now intros r [= <-]).
    + eexists. split; [reflexivity |]. now intros r [= <-].
Qed.

End UnserialiseTheorems.

(** ** The properties at concrete inputs *)

Lemma Split_Serialise_witness :
  forallb prints_plain (controls Whole.all_classes) = true /\
  Split (Serialise Whole.all_classes) "|"
  = [ "e#7C1:x#3Ay"; "c:#23FF0000"; "t:line#231"; "i:-42"; "f:3.000000"; "d:b"; "k:0" ] /\
  Str.before ":" "e#7C1:x#3Ay" = inline_string_encode "e|1".
Proof.
  assert (Hplain : forallb prints_plain (controls Whole.all_classes) = true)
    by reflexivity.
  split; [exact Hplain |].
  destruct (@Split_Serialise Whole.platform Whole.all_classes Hplain) as [Hsplit Htoken].
  split; [exact Hsplit |].
  exact (proj1 (proj2 (Htoken (Edit (named "e|1") "x:y")))).
Defined.

Lemma UnserialiseValue_SerialiseValue_witness :
  @self_contained Whole.platform Samples.minus_42 /\
  UnserialiseValue Samples.minus_42 "-42" = Samples.minus_42.
Proof.
  assert (Hself : @self_contained Whole.platform Samples.minus_42)
    by (cbn; unfold in_int, C.INT_MIN, C.INT_MAX; lia).
  split; [exact Hself |].
  exact (@UnserialiseValue_SerialiseValue Whole.platform Samples.minus_42 Hself).
Defined.

Lemma Whole_all_classes_round_trip (control : @Control Whole.platform) :
  In control (controls Whole.all_classes) ->
  CanSerialiseValue control = true ->
  value_round_trips control.
Proof.
  cbn. intros [<- | [<- | [<- | [<- | [<- | [<- | [<- | [<- | []]]]]]]]] _; reflexivity.
Qed.

Lemma Whole_all_classes_names :
  NoDup (serialisable_names (controls Whole.all_classes)).
Proof.
  cbn. repeat (constructor; [cbn; intuition discriminate |]). constructor.
Qed.

Lemma Unserialise_Serialise_restores_witness :
  (NoDup (serialisable_names (controls Whole.all_classes)) /\
   forallb prints_plain (controls Whole.all_classes) = true) /\
  Unserialise (Unserialise Whole.all_classes "i:7|k:1|e#7C1:zzz|f:2|d:a")
              (Serialise Whole.all_classes)
  = Whole.all_classes /\
  controls (Unserialise Whole.all_classes "i:7|k:1|e#7C1:zzz|f:2|d:a")
  <> controls Whole.all_classes.
Proof.
  assert (Hplain : forallb prints_plain (controls Whole.all_classes) = true)
    by reflexivity.
  split; [split; [exact Whole_all_classes_names | exact Hplain] |].
  split; [| discriminate].
  exact (proj2 (@Unserialise_Serialise_restores Whole.platform Whole.all_classes
                  Whole_all_classes_names Whole_all_classes_round_trip Hplain)
               "i:7|k:1|e#7C1:zzz|f:2|d:a").
Defined.

Lemma Samples_edit_fields (name : string) :
  name <> "class" ->
  lua_getfield Samples.upper_edit name = lua_getfield Samples.lower_edit name.
Proof.
  intros Hname. unfold Samples.upper_edit, Samples.lower_edit. cbn [lua_getfield].
  destruct (String.eqb "class" name) eqn:Hclass; [| reflexivity].
  apply String.eqb_eq in Hclass. congruence.
Qed.

Lemma make_control_case_insensitive_witness :
  Str.to_lower (get_field Samples.upper_edit "class")
  = Str.to_lower (get_field Samples.lower_edit "class") /\
  make_control Samples.upper_edit = make_control Samples.lower_edit /\
  make_control Samples.upper_edit = Ok (Edit (named "e") "v").
Proof.
  assert (Hclass : Str.to_lower (get_field Samples.upper_edit "class")
                   = Str.to_lower (get_field Samples.lower_edit "class")) by reflexivity.
  split; [exact Hclass |]. split; [| reflexivity].
  exact (@make_control_case_insensitive Whole.platform _ _ Hclass Samples_edit_fields).
Defined.

Lemma make_control_classes_witness :
  make_control Samples.bogus = Raise "bad control table entry" /\
  make_control Samples.classless = Raise "bad control table entry" /\
  make_control Whole.stale_dropdown = Ok (Dropdown (named "d") ["a"; "b"] "a").
Proof.
  destruct (@make_control_classes Whole.platform Samples.bogus) as [Hunknown _].
  destruct (@make_control_classes Whole.platform Samples.classless) as [_ [Hmissing _]].
  split; [| split; [| reflexivity]].
  - apply Hunknown. cbn. intuition discriminate.
  - apply Hmissing. reflexivity.
Defined.

Lemma LuaDialog_ctor_shape_witness :
  @LuaDialog_ctor Whole.platform (LString "no table") LNil LNil true
  = Raise "Cannot create config dialog from something non-table" /\
  @LuaDialog_ctor Whole.platform
     (LTable [ array_entry 1 (LTable Samples.lower_edit); array_entry 2 (LString "x") ])
     LNil LNil true
  = Raise "bad control table entry".
Proof.
  split.
  - apply (@LuaDialog_ctor_shape Whole.platform (LString "no table") LNil LNil true).
    reflexivity.
  - destruct (@LuaDialog_ctor_shape Whole.platform
                (LTable [ array_entry 1 (LTable Samples.lower_edit);
                          array_entry 2 (LString "x") ]) LNil LNil true)
      as [_ [Hentry _]].
    apply (Hentry [array_entry 1 (LTable Samples.lower_edit)] (array_entry 2 (LString "x"))
                  [] [Edit (named "e") "v"]); reflexivity.
Defined.

Lemma constructed_buttons_witness :
  @LuaDialog_ctor Whole.platform (LTable []) Samples.go_stop_labels Samples.stop_cancels true
  = Ok Samples.mapped /\
  Forall (fun b => -1 <= fst b <= 8) (buttons Samples.mapped) /\
  map snd (buttons Samples.mapped) = ["Go"; "Stop"].
Proof.
  assert (Hctor : @LuaDialog_ctor Whole.platform (LTable []) Samples.go_stop_labels
                    Samples.stop_cancels true = Ok Samples.mapped) by reflexivity.
  split; [exact Hctor |].
  destruct (@constructed_buttons Whole.platform _ _ _ _ _ Hctor) as [Hids Hlabels].
  split; [exact Hids |].
  apply (Hlabels [ array_entry 1 (LString "Go"); array_entry 2 (LString "Stop") ]
                 [(-1, "Go"); (-1, "Stop")]); try reflexivity. discriminate.
Defined.

Lemma unmapped_buttons_witness :
  @LuaDialog_ctor Whole.platform (LTable []) Samples.go_stop_labels LNil true
  = Ok Samples.unmapped /\
  LuaReadBack (PushButton Samples.unmapped 1)
  = Ok {| activation := Some (LString "Stop"); values := [] |}.
Proof.
  assert (Hctor : @LuaDialog_ctor Whole.platform (LTable [])
                    (LTable [ array_entry 1 (LString "Go"); array_entry 2 (LString "Stop") ])
                    LNil true = Ok Samples.unmapped) by reflexivity.
  split; [exact Hctor |].
  assert (Hne : [ @array_entry Whole.platform 1 (LString "Go");
                  array_entry 2 (LString "Stop") ] <> []) by discriminate.
  assert (Hnomap : @lua_istable Whole.platform LNil = false) by reflexivity.
  destruct (@unmapped_buttons Whole.platform _ _ _ _ Hne Hnomap Hctor) as [_ [_ Hpush]].
  exact (Hpush 1%nat (-1, "Stop") eq_refl).
Defined.


Lemma constructed_dropdown_value_witness :
  @LuaDialog_ctor Whole.platform (LTable [array_entry 1 (LTable Whole.stale_dropdown)])
                  LNil LNil false
  = Ok Samples.one_dropdown /\
  Forall value_among_items (controls Samples.one_dropdown).
Proof.
  assert (Hctor : @LuaDialog_ctor Whole.platform
                    (LTable [array_entry 1 (LTable Whole.stale_dropdown)]) LNil LNil false
                  = Ok Samples.one_dropdown) by reflexivity.
  split; [exact Hctor |].
  exact (@constructed_dropdown_value Whole.platform _ _ _ _ _ Hctor).
Defined.

Lemma LuaReadBack_last_wins_witness :
  LuaReadBack Whole.shared_name
  = Ok {| activation := None;
          values := [ (LString "y", LString "other"); (LString "x", LString "two") ] |} /\
  lua_getfield [ (@LString Whole.platform "y", LString "other");
                 (LString "x", LString "two") ] "x"
  = control_LuaReadBack (Edit (named "x") "two").
Proof.
  assert (Hread : LuaReadBack Whole.shared_name
                  = Ok {| activation := None;
                          values := [ (LString "y", LString "other");
                                      (LString "x", LString "two") ] |}) by reflexivity.
  split; [exact Hread |].
  exact (@LuaReadBack_last_wins Whole.platform Whole.shared_name _ "x" Hread).
Defined.

Lemma read_string_array_strings_witness :
  exists items,
    @read_string_array Whole.platform (LTable Samples.mixed_items) = Ok items /\
    map Some items
    = map lua_tostring (filter lua_isstring (map snd Samples.mixed_items)) /\
    (List.length items <= List.length Samples.mixed_items)%nat.
Proof.
  exact (@read_string_array_strings Whole.platform Samples.mixed_items).
Defined.

Lemma Unserialise_tolerant_witness :
  Unserialise Whole.shared_name "no separator|z:unknown|" = Whole.shared_name /\
  nth_error (controls (Unserialise Whole.shared_name "x:1")) 3 = Some (Edit (named "x") "1") /\
  Split "junk|x:1|q|x:2|z:9" "|" = ["junk"; "x:1"; "q"; "x:2"; "z:9"] /\
  nth_error (controls (Unserialise Whole.shared_name "junk|x:1|q|x:2|z:9")) 0
  = Some (Edit (named "x") "2") /\
  nth_error (controls (Unserialise Whole.shared_name "junk|x:1|q|x:2|z:9")) 1
  = Some (Checkbox (named "x") "" true) /\
  nth_error (controls (Unserialise Whole.shared_name "junk|x:1|q|x:2|z:9")) 2
  = Some (Edit (named "y") "other") /\
  controls (Unserialise Whole.shared_name "junk|x:1")
  = [ Edit (named "x") "1";
      Checkbox (named "x") "" true;
      Edit (named "y") "other";
      Edit (named "x") "1" ].
Proof.
  destruct (@Unserialise_tolerant Whole.platform Whole.shared_name "no separator|z:unknown|")
    as [_ [_ [Hskip _]]].
  destruct (@Unserialise_tolerant Whole.platform Whole.shared_name "x:1")
    as [_ [_ [_ [Hhand _]]]].
  destruct (@Unserialise_tolerant Whole.platform Whole.shared_name "junk|x:1|q|x:2|z:9")
    as [_ [_ [_ [_ [_ [Hkeep [Hlast _]]]]]]].
  destruct (@Unserialise_tolerant Whole.platform Whole.shared_name "junk|x:1")
    as [_ [_ [_ [_ [Happend _]]]]].
  assert (Hpost : forall tok' : string,
             In tok' ["z:9"%string] ->
             Str.contains ":" tok' = false \/
             "x"%string <> inline_string_decode (Str.before ":" tok')).
  { intros tok' [<- | []]. right. discriminate. }
  split; [| split; [| split; [| split; [| split; [| split]]]]].
  - apply Hskip. intros tok Hin. cbn in Hin.
    destruct Hin as [<- | [<- | [<- | []]]].
    + left. reflexivity.
    + right. intros c Hc. cbn in Hc.
      destruct Hc as [<- | [<- | [<- | [<- | []]]]]; cbn; discriminate.
    + left. reflexivity.
  - apply (Hhand eq_refl eq_refl 3%nat (Edit (named "x") "two")). reflexivity.
  - reflexivity.
  - apply (Hlast ["junk"; "x:1"; "q"]%string "x:2"%string ["z:9"%string] 0%nat
                 (Edit (named "x") "one") eq_refl eq_refl eq_refl eq_refl eq_refl Hpost).
  - apply (Hlast ["junk"; "x:1"; "q"]%string "x:2"%string ["z:9"%string] 1%nat
                 (Checkbox (named "x") "" false) eq_refl eq_refl eq_refl eq_refl eq_refl Hpost).
  - apply (Hkeep 2%nat (Edit (named "y") "other") eq_refl).
    intros tok Hin. cbn in Hin.
    destruct Hin as [<- | [<- | [<- | [<- | [<- | []]]]]];
      try (left; reflexivity); right; left; discriminate.
  - rewrite (Happend "junk"%string "x:1"%string eq_refl). reflexivity.
Defined.
